(** * auto-assign-defaults: a shallow embedding of [cmd/main.go]

    The program runs once per pull-request event.  It validates three
    environment inputs, fetches the pull request and applies four rules:
    a title-based label, a size label (D-n), a default assignee and default
    reviewers.  Every rule is embedded below as a computation in a small
    trace-and-exit monad; the hosting API and the random source are explicit
    parameters of the computations. *)

From Stdlib Require Import ZArith List Bool String Ascii Lia Permutation.
From stdpp Require Import base option list gmap.
Import ListNotations.
Local Open Scope Z_scope.

(** ** Go strings

    A Go string is modelled by the sequence of its runes (code points).
    The strings the program handles are literals, fields decoded from JSON
    and environment values; they are taken to be valid UTF-8, on which byte
    equality and rune equality coincide. *)
Module GoString.

Definition rune : Type := Z.
Definition gostring : Type := list rune.

(** String literals of the source (all ASCII). *)
Definition lit (s : string) : gostring :=
  List.map (fun a => Z.of_N (N_of_ascii a)) (list_ascii_of_string s).

Definition eqb (s t : gostring) : bool := bool_decide (s = t).

(** [strings.HasPrefix]. *)
Fixpoint HasPrefix (s prefix : gostring) : bool :=
  match prefix, s with
  | [], _ => true
  | p :: prefix', c :: s' => (c =? p) && HasPrefix s' prefix'
  | _ :: _, [] => false
  end.

(** [strings.Cut]: the text before and after the first instance of
    [sep]; it underlies [Index], [Contains] and the splitting functions. *)
Fixpoint Cut (s sep : gostring) : option (gostring * gostring) :=
  if HasPrefix s sep then Some ([], drop (length sep) s)
  else match s with
       | [] => None
       | c :: s' =>
           match Cut s' sep with
           | Some (before, after) => Some (c :: before, after)
           | None => None
           end
       end.

(** [strings.Contains]. *)
Definition Contains (s substr : gostring) : bool :=
  match Cut s substr with Some _ => true | None => false end.

(** [strings.genSplit] for a non-empty separator: at most [n] pieces when
    [0 < n], all pieces when [n < 0], none when [n = 0].  [fuel] bounds
    the number of cuts; [S (length s)] is always enough. *)
Fixpoint genSplit (fuel : nat) (s sep : gostring) (n : Z) : list gostring :=
  match fuel with
  | O => [s]
  | S fuel' =>
      if n =? 0 then []
      else if n =? 1 then [s]
      else match Cut s sep with
           | Some (before, after) => before :: genSplit fuel' after sep (n - 1)
           | None => [s]
           end
  end.

(** [strings.SplitN] and [strings.Split] (separator non-empty, as at both
    call sites of the program). *)
Definition SplitN (s sep : gostring) (n : Z) : list gostring :=
  genSplit (S (length s)) s sep n.

Definition Split (s sep : gostring) : list gostring :=
  SplitN s sep (-1).

(** [unicode.IsSpace]: the Latin-1 cases are spelled out in the Go
    source; beyond Latin-1 it is the White_Space property. *)
Definition IsSpace (r : rune) : bool :=
  (((9 <=? r) && (r <=? 13)) || (r =? 32) || (r =? 133) || (r =? 160)
   || (r =? 5760) || ((8192 <=? r) && (r <=? 8202)) || (r =? 8232)
   || (r =? 8233) || (r =? 8239) || (r =? 8287) || (r =? 12288))%bool.

Fixpoint TrimLeftSpace (s : gostring) : gostring :=
  match s with
  | c :: s' => if IsSpace c then TrimLeftSpace s' else s
  | [] => []
  end.

Definition TrimRightSpace (s : gostring) : gostring :=
  rev (TrimLeftSpace (rev s)).

(** [strings.TrimSpace]. *)
Definition TrimSpace (s : gostring) : gostring :=
  TrimRightSpace (TrimLeftSpace s).

Section Lower.
(** The lower-case mapping of the Unicode case tables for runes above
    ASCII; the tables belong to the Go runtime, not to this program. *)
Variable caseLower : rune -> rune.

(** [unicode.ToLower]: ASCII is handled inline, the rest by the tables. *)
Definition unicode_ToLower (r : rune) : rune :=
  if r <=? 127 then
    if (65 <=? r) && (r <=? 90) then r + 32 else r
  else caseLower r.

(** [strings.ToLower]. *)
Definition ToLower (s : gostring) : gostring :=
  List.map unicode_ToLower s.
End Lower.

End GoString.
Import GoString.

(** ** Regular expressions

    The fragment of Go's [regexp] syntax the program uses, with the
    leftmost-first (backtracking) matching discipline of the package and
    the replacement loop of [Regexp.ReplaceAllString]. *)
Module Regexp.

Inductive regexp : Type :=
| Class (p : rune -> bool)      (* a bracketed character class *)
| AnyCharNotNL                  (* [.] without the s flag *)
| Star (r : regexp)             (* greedy [r*] *)
| EndText                       (* [$] without the m flag *)
| Concat (r1 r2 : regexp).

(** The greedy loop of [r*]: [step] matches [r] once; an iteration that
    consumes nothing is not repeated, and when no further iteration leads
    to a match the loop hands over to [k]. *)
Fixpoint starLoop (step : gostring -> (gostring -> option gostring) -> option gostring)
    (k : gostring -> option gostring) (n : nat) (s : gostring) : option gostring :=
  match n with
  | O => k s
  | S n' =>
      match step s (fun s' =>
              if (length s' <? length s)%nat then starLoop step k n' s' else None) with
      | Some e => Some e
      | None => k s
      end
  end.

(** [matchk r s k]: match [r] at the head of [s] and hand the unread
    suffix to the continuation [k]; alternatives are tried in priority
    order and the first overall success is the answer. *)
Fixpoint matchk (r : regexp) (s : gostring)
    (k : gostring -> option gostring) {struct r} : option gostring :=
  match r with
  | Class p =>
      match s with
      | c :: s' => if p c then k s' else None
      | [] => None
      end
  | AnyCharNotNL =>
      match s with
      | c :: s' => if c =? 10 then None else k s'
      | [] => None
      end
  | EndText =>
      match s with
      | [] => k []
      | _ :: _ => None
      end
  | Concat r1 r2 => matchk r1 s (fun s' => matchk r2 s' k)
  | Star r1 => starLoop (matchk r1) k (length s) s
  end.

(** The leftmost match of [re] in [src] that starts at or after rune
    position [pos]: the positions where it begins and ends. *)
Fixpoint findFrom (fuel : nat) (re : regexp) (src : gostring) (pos : nat)
    : option (nat * nat) :=
  match matchk re (drop pos src) Some with
  | Some rest => Some (pos, (length src - length rest)%nat)
  | None =>
      match fuel with
      | O => None
      | S fuel' =>
          if (pos <? length src)%nat then findFrom fuel' re src (S pos) else None
      end
  end.

Definition doExecute (re : regexp) (src : gostring) (pos : nat)
    : option (nat * nat) :=
  findFrom (length src) re src pos.

(** The loop of [Regexp.replaceAll]; every iteration moves [searchPos]
    forward, so [length src + 1] iterations suffice. *)
Fixpoint replaceAll (fuel : nat) (re : regexp) (src repl : gostring)
    (lastMatchEnd searchPos : nat) (buf : gostring) : gostring :=
  match fuel with
  | O => buf ++ drop lastMatchEnd src
  | S fuel' =>
      if (length src <? searchPos)%nat then buf ++ drop lastMatchEnd src
      else
        match doExecute re src searchPos with
        | None => buf ++ drop lastMatchEnd src
        | Some (a0, a1) =>
            let buf := buf ++ take (a0 - lastMatchEnd) (drop lastMatchEnd src) in
            let buf :=
              if (lastMatchEnd <? a1)%nat || (a0 =? 0)%nat then buf ++ repl
              else buf in
            let width := if (searchPos <? length src)%nat then 1%nat else 0%nat in
            let searchPos' :=
              if (a1 <? searchPos + width)%nat then (searchPos + width)%nat
              else if (a1 <? searchPos + 1)%nat then (searchPos + 1)%nat
              else a1 in
            replaceAll fuel' re src repl a1 searchPos' buf
        end
  end.

(** [Regexp.ReplaceAllString] for a replacement text without [$]. *)
Definition ReplaceAllString (re : regexp) (src repl : gostring) : gostring :=
  replaceAll (S (length src)) re src repl 0 0 [].

End Regexp.
Import Regexp.

(** ** Effects

    A run leaves a trace of log lines and API calls and ends in one of three
    ways: the function returns, the process exits ([log.Fatal] prints and
    calls [os.Exit 1]), or a loop is still running when its fuel is spent. *)
Module Effects.

(** Go's [error] values the program can meet: the [*strconv.NumError] of
    [strconv.Atoi] and whatever the API client reports. *)
Inductive error : Type :=
| NumError (func : string) (num : gostring) (err : string)
| ApiError (msg : string).

(** The operands of a formatting verb. *)
Inductive value : Type :=
| VString (s : gostring)
| VInt (n : Z)
| VError (e : error).

(** [github.ListOptions]; [ListContributorsOptions] embeds it and the
    program sets nothing else. *)
Record ListOptions : Type := { Page : Z; PerPage : Z }.

(** The pagination data of [github.Response]. *)
Record Response : Type := { NextPage : Z }.

(** The API operations the program invokes, with their arguments. *)
Inductive Call : Type :=
| PullRequests_Get (owner repo : gostring) (number : Z)
| PullRequests_ListFiles (owner repo : gostring) (number : Z)
    (opts : option ListOptions)
| Issues_AddLabelsToIssue (owner repo : gostring) (number : Z)
    (labels : list gostring)
| Issues_AddAssignees (owner repo : gostring) (number : Z)
    (assignees : list gostring)
| Repositories_ListContributors (owner repo : gostring) (opts : ListOptions)
| PullRequests_RequestReviewers (owner repo : gostring) (number : Z)
    (reviewers : list gostring).

Inductive Event : Type :=
| Log (format : string) (args : list value)
| Api (c : Call).

Inductive outcome (A : Type) : Type :=
| Done (a : A)
| Exit (code : Z)
| Running.
Arguments Done {A} a.
Arguments Exit {A} code.
Arguments Running {A}.

Definition M (A : Type) : Type := list Event * outcome A.

Definition ret {A} (a : A) : M A := ([], Done a).

Definition bind {A B} (m : M A) (f : A -> M B) : M B :=
  match m with
  | (t, Done a) => let (t', r) := f a in (t ++ t', r)
  | (t, Exit c) => (t, Exit c)
  | (t, Running) => (t, Running)
  end.

Definition trace {A} (m : M A) : list Event := fst m.
Definition result {A} (m : M A) : outcome A := snd m.

(** [log.Printf]. *)
Definition log_Printf (format : string) (args : list value) : M unit :=
  ([Log format args], Done tt).

(** [log.Fatal] and [log.Fatalf]. *)
Definition log_Fatalf {A} (format : string) (args : list value) : M A :=
  ([Log format args], Exit 1).

(** An API call is recorded; its answer comes from the environment. *)
Definition call {A} (c : Call) (answer : A) : M A := ([Api c], Done answer).

Definition isWrite (c : Call) : bool :=
  match c with
  | Issues_AddLabelsToIssue _ _ _ _ => true
  | Issues_AddAssignees _ _ _ _ => true
  | PullRequests_RequestReviewers _ _ _ _ => true
  | _ => false
  end.

Fixpoint calls (t : list Event) : list Call :=
  match t with
  | [] => []
  | Api c :: t' => c :: calls t'
  | Log _ _ :: t' => calls t'
  end.

Definition writes (t : list Event) : list Call := List.filter isWrite (calls t).

End Effects.
Import Effects.

#[global] Instance M_ret : MRet M := @Effects.ret.
#[global] Instance M_bind : MBind M := fun A B f m => Effects.bind m f.

(** ** The hosting API as the program sees it *)
Module GitHub.

(** The fields of [github.PullRequest] the program reads; labels and
    users are reduced to their names and logins. *)
Record PullRequest : Type := {
  Title : gostring;
  User : gostring;
  Labels : list gostring;
  Assignees : list gostring;
  RequestedReviewers : list gostring
}.

Record CommitFile : Type := { Additions : Z; Deletions : Z }.

Record Contributor : Type := { Login : gostring }.

(** One answer per request: the program is sequential and repeats no
    request within a run unless the server repeats a page number. *)
Record Client : Type := {
  Get : gostring -> gostring -> Z -> error + PullRequest;
  ListFiles :
    gostring -> gostring -> Z -> option ListOptions ->
    error + (list CommitFile * Response);
  AddLabelsToIssue : gostring -> gostring -> Z -> list gostring -> option error;
  AddAssignees : gostring -> gostring -> Z -> list gostring -> option error;
  ListContributors :
    gostring -> gostring -> ListOptions -> error + (list Contributor * Response);
  RequestReviewers : gostring -> gostring -> Z -> list gostring -> option error
}.

End GitHub.
Import GitHub.

(** ** Integers

    Go's [int] is 64 bits wide on the platforms the action runs on;
    addition wraps around in two's complement. *)
Module Int.

Definition wrap (z : Z) : Z := (z + 2 ^ 63) mod 2 ^ 64 - 2 ^ 63.

Definition add (a b : Z) : Z := wrap (a + b).

Definition inRange (z : Z) : Prop := - 2 ^ 63 <= z < 2 ^ 63.

Definition isDigit (r : rune) : bool := (48 <=? r) && (r <=? 57).

(** The digit loop of [strconv.ParseUint] in base 10, read left to right:
    a rune that is no digit is a syntax error, a value that leaves 64 bits
    a range error, whichever comes first. *)
Fixpoint parseUint (digits : gostring) (n : Z) : string + Z :=
  match digits with
  | [] => inr n
  | ch :: digits' =>
      if isDigit ch then
        if 2 ^ 64 <=? n * 10 + (ch - 48) then inl "value out of range"%string
        else parseUint digits' (n * 10 + (ch - 48))
      else inl "invalid syntax"%string
  end.

(** [strconv.Atoi]: an optional sign and decimal digits; an empty text, a
    bare sign or a rune that is no digit is a syntax error, a value outside
    [int] a range error. *)
Definition Atoi (s : gostring) : error + Z :=
  let digits :=
    match s with
    | c :: s' => if (c =? 45) || (c =? 43) then s' else s
    | [] => []
    end in
  match digits with
  | [] => inl (NumError "Atoi" s "invalid syntax")
  | _ :: _ =>
      match parseUint digits 0 with
      | inl err => inl (NumError "Atoi" s err)
      | inr un =>
          let n := if HasPrefix s [45] then - un else un in
          if (- 2 ^ 63 <=? n) && (n <? 2 ^ 63) then inr n
          else inl (NumError "Atoi" s "value out of range")
      end
  end.

End Int.

(** ** Randomness

    The global source of [math/rand] is a stream of raw draws; [Int31n n]
    reduces the next draw below [n], as every source must. *)
Module Rand.

Definition Source : Type := list nat.

Definition Int31n (n : nat) (src : Source) : nat * Source :=
  match src with
  | d :: src' => (d mod n, src')%nat
  | [] => (0%nat, [])
  end.

(** The function literal passed to [rand.Shuffle]:
    [contributors[i], contributors[j] = contributors[j], contributors[i]].
    Both operands are read before either slot is written. *)
Definition swap {A} (l : list A) (i j : nat) : list A :=
  match l !! i, l !! j with
  | Some x, Some y => <[j := x]> (<[i := y]> l)
  | _, _ => l
  end.

(** The loop of [rand.Shuffle]: [i] runs from [n - 1] down to [1] and
    slot [i] is exchanged with a random slot [j <= i]. *)
Fixpoint shuffleFrom {A} (i : nat) (src : Source) (l : list A) : list A :=
  match i with
  | O => l
  | S i' =>
      let (j, src') := Int31n (S i) src in
      shuffleFrom i' src' (swap l i j)
  end.

Definition Shuffle {A} (n : nat) (src : Source) (l : list A) : list A :=
  shuffleFrom (n - 1) src l.

End Rand.

(** ** The program *)
Section Program.

Variable caseLower : rune -> rune.

(** The class [[\(\[\{<]] of the pattern. *)
Definition bracketClass (r : rune) : bool :=
  (r =? 40) || (r =? 91) || (r =? 123) || (r =? 60).

(** [regexp.MustCompile(`[\(\[\{<].*$`)]. *)
Definition re : regexp :=
  Concat (Class bracketClass) (Concat (Star AnyCharNotNL) EndText).

Definition labelMap : gmap gostring gostring :=
  list_to_map
    [ (lit "feat", lit "enhancement");
      (lit "fix", lit "bug");
      (lit "docs", lit "documentation");
      (lit "style", lit "style");
      (lit "refactor", lit "refactor");
      (lit "perf", lit "performance");
      (lit "test", lit "test");
      (lit "chore", lit "chore") ].

(** The prefix computed by [handleTitleBasedLabel] once the title is
    known to hold a colon. *)
Definition cleanPrefix (title : gostring) : gostring :=
  let parts := SplitN title (lit ":") 2 in
  let prefix := ToLower caseLower (TrimSpace (default [] (parts !! 0%nat))) in
  ReplaceAllString re prefix [].

Definition handleTitleBasedLabel (client : Client) (owner repo : gostring)
    (prNumber : Z) (pr : PullRequest) : M unit :=
  let title := Title pr in
  (if negb (Contains (ToLower caseLower title) (lit ":"))
   then log_Fatalf "PR title does not contain a colon: %s" [VString title]
   else mret tt);;
  let prefix := cleanPrefix title in
  label ← match labelMap !! prefix with
          | Some label => mret label
          | None => log_Fatalf "No matching label for prefix: %s" [VString prefix]
          end;
  if existsb (fun l => GoString.eqb l label) (Labels pr)
  then log_Printf "PR already has label: %s" [VString label]
  else
    err ← call (Issues_AddLabelsToIssue owner repo prNumber [label])
               (AddLabelsToIssue client owner repo prNumber [label]);
    match err with
    | Some e => log_Printf "Failed to add title-based labels: %v" [VError e]
    | None => log_Printf "Added title-based labels: %v" [VString label]
    end.

(** The sum accumulated by the loop over [files]. *)
Definition totalChangesOf (files : list CommitFile) : Z :=
  fold_left
    (fun totalChanges file =>
       Int.add totalChanges (Int.add (Additions file) (Deletions file)))
    files 0.

(** The three-way branch that sets [dayLabel]. *)
Definition dayLabelOf (totalChanges : Z) : gostring :=
  if totalChanges <? 200 then lit "D-3"
  else if totalChanges <? 500 then lit "D-5"
  else lit "D-7".

Definition handleDayLabel (client : Client) (owner repo : gostring)
    (prNumber : Z) (pr : PullRequest) : M unit :=
  r ← call (PullRequests_ListFiles owner repo prNumber None)
           (ListFiles client owner repo prNumber None);
  match r with
  | inl err => log_Printf "Failed to list changed files: %v" [VError err]
  | inr (files, _) =>
      let totalChanges := totalChangesOf files in
      let dayLabel := dayLabelOf totalChanges in
      match List.find (fun lab => HasPrefix lab (lit "D-")) (Labels pr) with
      | Some lab => log_Printf "PR already has a D-n label: %s" [VString lab]
      | None =>
          err ← call (Issues_AddLabelsToIssue owner repo prNumber [dayLabel])
                     (AddLabelsToIssue client owner repo prNumber [dayLabel]);
          match err with
          | Some e => log_Printf "Failed to add D-n label: %v" [VError e]
          | None => log_Printf "Added Day label: %s" [VString dayLabel]
          end
      end
  end.

Definition assignDefaultAssignee (client : Client) (owner repo : gostring)
    (prNumber : Z) (pr : PullRequest) : M unit :=
  if negb (length (Assignees pr) =? 0)%nat
  then log_Printf "PR already has assignees" []
  else
    let author := User pr in
    err ← call (Issues_AddAssignees owner repo prNumber [author])
               (AddAssignees client owner repo prNumber [author]);
    match err with
    | Some e => log_Printf "Failed to add default assignee: %v" [VError e]
    | None => log_Printf "Default assignee (%s) added" [VString author]
    end.

(** The inner loop over one page: logins other than the author's are
    appended. *)
Definition appendPage (author : gostring) (contributors : list gostring)
    (contributor : list Contributor) : list gostring :=
  fold_left
    (fun contributors c =>
       if GoString.eqb (Login c) author then contributors
       else contributors ++ [Login c])
    contributor contributors.

(** The pagination loop of [assignDefaultReviewers]. *)
Fixpoint listAllContributors (fuel : nat) (client : Client)
    (owner repo author : gostring) (opts : ListOptions)
    (contributors : list gostring) : M (list gostring) :=
  match fuel with
  | O => ([], Running)
  | S fuel' =>
      r ← call (Repositories_ListContributors owner repo opts)
               (ListContributors client owner repo opts);
      match r with
      | inl err =>
          log_Printf "Failed to list contributors: %v" [VError err];;
          mret contributors
      | inr (contributor, resp) =>
          let contributors := appendPage author contributors contributor in
          if NextPage resp =? 0 then mret contributors
          else
            listAllContributors fuel' client owner repo author
              {| Page := NextPage resp; PerPage := PerPage opts |} contributors
      end
  end.

(** What follows the loop: the emptiness guard, the sampling and the
    request. *)
Definition requestReviewers (src : Rand.Source) (client : Client)
    (owner repo : gostring) (prNumber : Z) (pr : PullRequest)
    (contributors : list gostring) : M unit :=
  if (length contributors =? 0)%nat
     || ((length contributors =? 1)%nat
         && GoString.eqb (default [] (contributors !! 0%nat)) (User pr))
  then log_Printf "No contributors found" []
  else
    let reviewers :=
      if (10 <? length contributors)%nat
      then take 10 (Rand.Shuffle (length contributors) src contributors)
      else contributors in
    err ← call (PullRequests_RequestReviewers owner repo prNumber reviewers)
               (RequestReviewers client owner repo prNumber reviewers);
    match err with
    | Some e => log_Printf "Failed to add default reviewers: %v" [VError e]
    | None =>
        log_Printf "Default reviewers added: %v" (List.map VString reviewers)
    end.

Definition assignDefaultReviewers (fuel : nat) (src : Rand.Source)
    (client : Client) (owner repo : gostring) (prNumber : Z)
    (pr : PullRequest) : M unit :=
  if negb (length (RequestedReviewers pr) =? 0)%nat
  then log_Printf "PR already has reviewers" []
  else
    contributors ←
      listAllContributors fuel client owner repo (User pr)
        {| Page := 0; PerPage := 100 |} [];
    requestReviewers src client owner repo prNumber pr contributors.

(** [getPullRequest]. *)
Definition getPullRequest (client : Client) (owner repo : gostring)
    (prNumber : Z) : M (error + PullRequest) :=
  call (PullRequests_Get owner repo prNumber) (Get client owner repo prNumber).

(** [main]: [getenv] is [os.Getenv] (an unset variable reads as the empty
    string) and [newGitHubClient] builds the client from the token. *)
Definition main (getenv : string -> gostring)
    (newGitHubClient : gostring -> Client)
    (fuel : nat) (src : Rand.Source) : M unit :=
  let token := getenv "GITHUB_TOKEN"%string in
  (if GoString.eqb token [] then log_Fatalf "GITHUB_TOKEN env not set" []
   else mret tt);;
  let repoFull := getenv "GITHUB_REPOSITORY"%string in
  (if GoString.eqb repoFull [] then log_Fatalf "GITHUB_REPOSITORY env not set" []
   else mret tt);;
  let parts := Split repoFull (lit "/") in
  (if negb (length parts =? 2)%nat
   then log_Fatalf "GITHUB_REPOSITORY format invalid" []
   else mret tt);;
  let owner := default [] (parts !! 0%nat) in
  let repo := default [] (parts !! 1%nat) in
  let prNumberStr := getenv "PR_NUMBER"%string in
  (if GoString.eqb prNumberStr [] then log_Fatalf "PR_NUMBER env not set" []
   else mret tt);;
  prNumber ← match Int.Atoi prNumberStr with
             | inr n => mret n
             | inl err => log_Fatalf "Invalid PR_NUMBER: %v" [VError err]
             end;
  let client := newGitHubClient token in
  r ← getPullRequest client owner repo prNumber;
  pr ← match r with
       | inr pr => mret pr
       | inl err => log_Fatalf "Failed to get PR #%d: %v" [VInt prNumber; VError err]
       end;
  handleTitleBasedLabel client owner repo prNumber pr;;
  handleDayLabel client owner repo prNumber pr;;
  assignDefaultAssignee client owner repo prNumber pr;;
  assignDefaultReviewers fuel src client owner repo prNumber pr.

End Program.

(** ** The hosting service

    The service behind the client, as far as pagination goes: a collection
    is served in pages of 30 items unless the request asks otherwise (at
    most 100), page numbers start at 1, and the response names the next
    page or 0 after the last one.  A request may also fail. *)
Module Hosting.

Record Listing (A : Type) : Type := {
  items : list A;
  outage : nat -> option error
}.
Arguments items {A} _.
Arguments outage {A} _ _.

Definition perPageOf (opts : option ListOptions) : nat :=
  match opts with
  | None => 30
  | Some o =>
      if PerPage o <=? 0 then 30
      else if 100 <? PerPage o then 100
      else Z.to_nat (PerPage o)
  end.

Definition pageOf (opts : option ListOptions) : nat :=
  match opts with
  | None => 1
  | Some o => if Page o <=? 0 then 1 else Z.to_nat (Page o)
  end.

Definition servePage {A} (L : Listing A) (opts : option ListOptions)
    : error + (list A * Response) :=
  let pp := perPageOf opts in
  let p := pageOf opts in
  match outage L p with
  | Some e => inl e
  | None =>
      inr (take pp (drop ((p - 1) * pp) (items L)),
           {| NextPage :=
                if (p * pp <? length (items L))%nat then Z.of_nat (S p) else 0 |})
  end.

Record Host : Type := {
  pull : error + PullRequest;
  files : Listing CommitFile;
  contributors : Listing Contributor;
  refuse : Call -> option error
}.

Definition clientOf (h : Host) : Client := {|
  Get := fun _ _ _ => pull h;
  ListFiles := fun _ _ _ opts => servePage (files h) opts;
  AddLabelsToIssue := fun owner repo n labels =>
    refuse h (Issues_AddLabelsToIssue owner repo n labels);
  AddAssignees := fun owner repo n assignees =>
    refuse h (Issues_AddAssignees owner repo n assignees);
  ListContributors := fun _ _ opts => servePage (contributors h) (Some opts);
  RequestReviewers := fun owner repo n reviewers =>
    refuse h (PullRequests_RequestReviewers owner repo n reviewers)
|}.

Definition reliable {A} (l : list A) : Listing A :=
  {| items := l; outage := fun _ => None |}.

End Hosting.
Import Hosting.

(** ** Vocabulary of the statements *)

(** The text before the first [c], the whole text when there is none. *)
Fixpoint beforeSep (c : rune) (s : gostring) : gostring :=
  match s with
  | [] => []
  | x :: s' => if x =? c then [] else x :: beforeSep c s'
  end.

(** The text after the first [c]. *)
Fixpoint afterSep (c : rune) (s : gostring) : gostring :=
  match s with
  | [] => []
  | x :: s' => if x =? c then s' else afterSep c s'
  end.

Definition hasNewline (s : gostring) : bool := existsb (Z.eqb 10) s.

(** The effect of replacing the matches of [re] by nothing, spelled out:
    the text is cut at the first bracket rune that no line feed follows. *)
Fixpoint stripBracket (s : gostring) : gostring :=
  match s with
  | [] => []
  | c :: s' =>
      if bracketClass c && negb (hasNewline s') then [] else c :: stripBracket s'
  end.

(** The position of that bracket rune. *)
Fixpoint firstMatch (s : gostring) : option nat :=
  match s with
  | [] => None
  | c :: s' =>
      if bracketClass c && negb (hasNewline s') then Some 0%nat
      else option_map S (firstMatch s')
  end.

(** The cut as the specification words it: everything from the first
    bracket rune onward goes. *)
Fixpoint stripFromFirstBracket (s : gostring) : gostring :=
  match s with
  | [] => []
  | c :: s' => if bracketClass c then [] else c :: stripFromFirstBracket s'
  end.

(** A text is said not to end in white space when its last rune, if it has
    one, is no space. *)
Definition endsUntrimmed (s : gostring) : Prop :=
  forall c, last s = Some c -> IsSpace c = false.

(** What the case tables are relied on for: the lower case of a rune
    above ASCII lies above ASCII too, or is an ASCII lower-case letter
    (as for U+0130 and U+212A). *)
Definition lowerIsLetter (caseLower : rune -> rune) : Prop :=
  forall r, 127 < r -> 127 < caseLower r \/ 97 <= caseLower r <= 122.

(** The second thing the case tables are relied on for: white space has no
    case and no letter lowers to white space. *)
Definition lowerKeepsSpace (caseLower : rune -> rune) : Prop :=
  forall r, 127 < r -> IsSpace (caseLower r) = IsSpace r.

(** The same pull request under another title. *)
Definition withTitle (pr : PullRequest) (title : gostring) : PullRequest := {|
  Title := title;
  User := User pr;
  Labels := Labels pr;
  Assignees := Assignees pr;
  RequestedReviewers := RequestedReviewers pr
|}.

(** What [handleTitleBasedLabel] does once the prefix is cleaned. *)
Definition applyLabel (client : Client) (owner repo : gostring) (prNumber : Z)
    (labels : list gostring) (prefix : gostring) : M unit :=
  label ← match labelMap !! prefix with
          | Some label => mret label
          | None => log_Fatalf "No matching label for prefix: %s" [VString prefix]
          end;
  if existsb (fun l => GoString.eqb l label) labels
  then log_Printf "PR already has label: %s" [VString label]
  else
    err ← call (Issues_AddLabelsToIssue owner repo prNumber [label])
               (AddLabelsToIssue client owner repo prNumber [label]);
    match err with
    | Some e => log_Printf "Failed to add title-based labels: %v" [VError e]
    | None => log_Printf "Added title-based labels: %v" [VString label]
    end.

Definition hasDayLabel (pr : PullRequest) : Prop :=
  exists lab, In lab (Labels pr) /\ HasPrefix lab (lit "D-") = true.

(** The logins of a list of contributors, the author's left out. *)
Definition contributorPool (author : gostring) (cs : list Contributor) : list gostring :=
  List.filter (fun login => negb (GoString.eqb login author)) (List.map Login cs).

(** The options the rule starts the loop with. *)
Definition firstPage : ListOptions := {| Page := 0; PerPage := 100 |}.

(** The reviewers a pool leads to. *)
Definition reviewersOf (src : Rand.Source) (pool : list gostring) : list gostring :=
  if (10 <? length pool)%nat
  then take 10 (Rand.Shuffle (length pool) src pool)
  else pool.

(** The specification's reading of a well-formed identifier: exactly two
    pieces, neither of them empty. *)
Definition twoNonEmptyParts (repoFull : gostring) : bool :=
  match Split repoFull (lit "/") with
  | [owner; name] => negb (GoString.eqb owner []) && negb (GoString.eqb name [])
  | _ => false
  end.

(** The entries of [labelMap], in the order of the source. *)
Definition labelTable : list (gostring * gostring) :=
  [ (lit "feat", lit "enhancement");
    (lit "fix", lit "bug");
    (lit "docs", lit "documentation");
    (lit "style", lit "style");
    (lit "refactor", lit "refactor");
    (lit "perf", lit "performance");
    (lit "test", lit "test");
    (lit "chore", lit "chore") ].

(** The labels the size rule can choose. *)
Definition dayLabels : list gostring := [lit "D-3"; lit "D-5"; lit "D-7"].

(** The changed lines of a list of files, as a mathematical sum. *)
Definition sumChanges (files : list CommitFile) : Z :=
  fold_right (fun file acc => Additions file + Deletions file + acc) 0 files.

(** The three inputs as [main] accepts them. *)
Definition validInputs (getenv : string -> gostring) (owner name : gostring)
    (n : Z) : Prop :=
  getenv "GITHUB_TOKEN"%string <> []
  /\ getenv "GITHUB_REPOSITORY"%string = owner ++ 47 :: name
  /\ ~ In 47 owner /\ ~ In 47 name
  /\ getenv "PR_NUMBER"%string <> []
  /\ Int.Atoi (getenv "PR_NUMBER"%string) = inr n.

(** ** Sample runs *)
Module Samples.

(** A lower-case table that knows the two runes above ASCII whose lower
    case is an ASCII letter. *)
Definition sampleLower (r : rune) : rune :=
  if r =? 304 then 105 else if r =? 8490 then 107 else r.

Definition samplePR (title : string) : PullRequest := {|
  Title := lit title;
  User := lit "alice";
  Labels := [];
  Assignees := [];
  RequestedReviewers := []
|}.

Definition file (a d : Z) : CommitFile := {| Additions := a; Deletions := d |}.

Definition user (login : string) : Contributor := {| Login := lit login |}.

Definition sampleHost (pr : PullRequest) (fs : list CommitFile)
    (cs : list Contributor) : Host := {|
  pull := inr pr;
  files := reliable fs;
  contributors := reliable cs;
  refuse := fun _ => None
|}.

Definition titleRun (title : string) : M unit :=
  handleTitleBasedLabel sampleLower
    (clientOf (sampleHost (samplePR title) [] []))
    (lit "o") (lit "r") 7 (samplePR title).

Definition isDigitClass (r : rune) : bool := (48 <=? r) && (r <=? 57).

Definition labelledPR : PullRequest := {|
  Title := lit "feat: x";
  User := lit "alice";
  Labels := [lit "bug"; lit "D-5"];
  Assignees := [];
  RequestedReviewers := [lit "bob"]
|}.

(** Thirty files of one added line each, then one file of a thousand. *)
Definition manyFiles : list CommitFile :=
  List.repeat (file 1 0) 30 ++ [file 1000 0].

Definition sampleEnv (repoFull : string) (key : string) : gostring :=
  if String.eqb key "GITHUB_TOKEN" then lit "t0ken"
  else if String.eqb key "GITHUB_REPOSITORY" then lit repoFull
  else if String.eqb key "PR_NUMBER" then lit "7"
  else [].

Definition sampleRun (repoFull : string) : M unit :=
  main sampleLower (sampleEnv repoFull)
    (fun _ => clientOf (sampleHost (samplePR "fix: typo") [file 3 1] [user "bob"]))
    5 [].

End Samples.
Import Samples.

(** ** Sample runs of the reviewer rule *)
Module ReviewerSamples.

(** Fifteen contributors besides the author, who is listed among them. *)
Definition crowd : list Contributor :=
  [user "u01"; user "u02"; user "u03"; user "alice"; user "u04"; user "u05";
   user "u06"; user "u07"; user "u08"; user "u09"; user "u10"; user "u11";
   user "u12"; user "u13"; user "u14"; user "u15"].

Definition trio : list Contributor := [user "bob"; user "alice"; user "carol"; user "dave"].

Definition pr0 : PullRequest := samplePR "feat: x".

Definition draws : Rand.Source := [3; 1; 4; 1; 5; 9; 2; 6; 5; 3; 5; 8; 9; 7]%nat.

Definition clientFor (cs : list Contributor) : Client :=
  clientOf (sampleHost pr0 [] cs).

Definition loopRun (cs : list Contributor) : M (list gostring) :=
  listAllContributors 20 (clientFor cs) (lit "o") (lit "r") (lit "alice") firstPage [].

Definition ruleRun (cs : list Contributor) : M unit :=
  assignDefaultReviewers 20 draws (clientFor cs) (lit "o") (lit "r") 7 pr0.

End ReviewerSamples.
Import ReviewerSamples.

(** ** Further samples *)
Module MoreSamples.

(** A service whose write calls all fail. *)
Definition refusingHost (pr : PullRequest) (fs : list CommitFile)
    (cs : list Contributor) : Host := {|
  pull := inr pr;
  files := reliable fs;
  contributors := reliable cs;
  refuse := fun _ => Some (ApiError "403 Forbidden")
|}.

(** A service on which the given pages of the contributor list fail. *)
Definition flakyHost (pr : PullRequest) (cs : list Contributor)
    (down : nat -> bool) : Host := {|
  pull := inr pr;
  files := reliable [];
  contributors :=
    {| items := cs;
       outage := fun q => if down q then Some (ApiError "502 Bad Gateway") else None |};
  refuse := fun _ => None
|}.

(** A service on which the file list cannot be read. *)
Definition filelessHost (pr : PullRequest) : Host := {|
  pull := inr pr;
  files := {| items := []; outage := fun _ => Some (ApiError "500") |};
  contributors := reliable [];
  refuse := fun _ => None
|}.

Definition assignedPR : PullRequest := {|
  Title := lit "docs: readme";
  User := lit "alice";
  Labels := [lit "documentation"];
  Assignees := [lit "zoe"];
  RequestedReviewers := []
|}.

Definition envOf (token repoFull number : string) (key : string) : gostring :=
  if String.eqb key "GITHUB_TOKEN" then lit token
  else if String.eqb key "GITHUB_REPOSITORY" then lit repoFull
  else if String.eqb key "PR_NUMBER" then lit number
  else [].

(** A listing in which one contributor comes twice: ten logins, the first
    of them repeated at the end. *)
Definition repeated : list Contributor :=
  [user "u01"; user "u02"; user "u03"; user "u04"; user "u05"; user "u06";
   user "u07"; user "u08"; user "u09"; user "u10"; user "u01"].

(** Two hundred and fifty contributors, numbered. *)
Definition numbered (n : nat) : list Contributor :=
  List.map (fun i => {| Login := [117; Z.of_nat i] |}) (seq 0 n).

End MoreSamples.
Import MoreSamples.

(** ** Worked examples *)

Example split_owner_name :
  Split (lit "owner/name") (lit "/") = [lit "owner"; lit "name"].
Proof. reflexivity. Qed.

Example split_trailing :
  Split (lit "a/b/") (lit "/") = [lit "a"; lit "b"; []].
Proof. reflexivity. Qed.

Example splitn_two :
  SplitN (lit "feat(a:b): c:d") (lit ":") 2 = [lit "feat(a"; lit "b): c:d"].
Proof. reflexivity. Qed.

Example trim_example :
  TrimSpace (lit "  feat (x)  ") = lit "feat (x)".
Proof. reflexivity. Qed.

Example replace_digits :
  ReplaceAllString (Concat (Class isDigitClass) (Star (Class isDigitClass)))
    (lit "ab12cd345e") (lit "#") = lit "ab#cd#e".
Proof. reflexivity. Qed.

Example replace_empty_matches :
  ReplaceAllString (Star (Class isDigitClass)) (lit "a1b") (lit "-")
  = lit "-a-b-".
Proof. reflexivity. Qed.

Example atoi_42 : Int.Atoi (lit "42") = inr 42.
Proof. reflexivity. Qed.

Example atoi_neg : Int.Atoi (lit "-7") = inr (-7).
Proof. reflexivity. Qed.

Example atoi_bad : Int.Atoi (lit "4x") = inl (NumError "Atoi" (lit "4x") "invalid syntax").
Proof. reflexivity. Qed.

Example atoi_overflow_before_letter :
  Int.Atoi (lit "99999999999999999999x")
  = inl (NumError "Atoi" (lit "99999999999999999999x") "value out of range").
Proof. reflexivity. Qed.

Example atoi_letter_before_overflow :
  Int.Atoi (lit "9999999999999999999x")
  = inl (NumError "Atoi" (lit "9999999999999999999x") "invalid syntax").
Proof. reflexivity. Qed.

Example atoi_min : Int.Atoi (lit "-9223372036854775808") = inr (- 2 ^ 63).
Proof. reflexivity. Qed.

Example atoi_big :
  Int.Atoi (lit "9223372036854775808")
  = inl (NumError "Atoi" (lit "9223372036854775808") "value out of range").
Proof. reflexivity. Qed.

Example shuffle_example :
  Rand.Shuffle 4 [2; 0; 1]%nat [10; 20; 30; 40] = [40; 20; 10; 30].
Proof. reflexivity. Qed.

Example title_feat :
  titleRun "feat(api): add endpoint"
  = ([Api (Issues_AddLabelsToIssue (lit "o") (lit "r") 7 [lit "enhancement"]);
      Log "Added title-based labels: %v" [VString (lit "enhancement")]],
     Done tt).
Proof. vm_compute. reflexivity. Qed.

Example title_upper :
  calls (trace (titleRun "  FIX[core] : crash"))
  = [Issues_AddLabelsToIssue (lit "o") (lit "r") 7 [lit "bug"]].
Proof. vm_compute. reflexivity. Qed.

Example title_no_colon :
  titleRun "feat add endpoint"
  = ([Log "PR title does not contain a colon: %s" [VString (lit "feat add endpoint")]],
     Exit 1).
Proof. vm_compute. reflexivity. Qed.

Example title_space_before_bracket :
  titleRun "feat (api): x"
  = ([Log "No matching label for prefix: %s" [VString (lit "feat ")]], Exit 1).
Proof. vm_compute. reflexivity. Qed.

Example title_space_before_colon :
  calls (trace (titleRun "feat : x"))
  = [Issues_AddLabelsToIssue (lit "o") (lit "r") 7 [lit "enhancement"]].
Proof. vm_compute. reflexivity. Qed.

(** ** Facts about the string functions *)
Section StringFacts.

Lemma HasPrefix_nil (s : gostring) : HasPrefix s [] = true.
Proof. destruct s; reflexivity. Qed.

Lemma HasPrefix_single (s : gostring) (c : rune) :
  HasPrefix s [c] = match s with x :: _ => x =? c | [] => false end.
Proof.
  destruct s as [|x s]; cbn [HasPrefix]; [reflexivity|].
  now rewrite HasPrefix_nil, andb_true_r.
Qed.

Lemma Cut_single_In (s : gostring) (c : rune) :
  In c s -> exists after, Cut s [c] = Some (beforeSep c s, after).
Proof.
  induction s as [|x s IH]; intros Hin; [destruct Hin|].
  cbn [Cut beforeSep]. rewrite HasPrefix_single.
  destruct (Z.eqb_spec x c) as [->|Hne].
  - eexists; reflexivity.
  - destruct Hin as [Heq|Hin]; [congruence|].
    destruct (IH Hin) as [after ->]. eexists; reflexivity.
Qed.

Lemma Cut_single_notin (s : gostring) (c : rune) :
  ~ In c s -> Cut s [c] = None /\ beforeSep c s = s.
Proof.
  induction s as [|x s IH]; intros Hnin; [split; reflexivity|].
  cbn [Cut beforeSep]. rewrite HasPrefix_single.
  destruct (Z.eqb_spec x c) as [->|Hne].
  - exfalso. apply Hnin. now left.
  - destruct IH as [-> ->]; [|split; reflexivity].
    intros Hin. apply Hnin. now right.
Qed.

Lemma Contains_single (s : gostring) (c : rune) :
  Contains s [c] = true <-> In c s.
Proof.
  unfold Contains. split.
  - intros H. destruct (in_dec Z.eq_dec c s) as [Hin|Hnin]; [assumption|].
    destruct (Cut_single_notin s c Hnin) as [Hcut _].
    rewrite Hcut in H. discriminate.
  - intros Hin. destruct (Cut_single_In s c Hin) as [after ->]. reflexivity.
Qed.

(** The first piece of [SplitN s sep 2] for a one-rune separator. *)
Lemma SplitN_first (s : gostring) (c : rune) :
  default [] (SplitN s [c] 2 !! 0%nat) = beforeSep c s.
Proof.
  unfold SplitN. cbn [genSplit]. change (2 =? 0) with false.
  change (2 =? 1) with false. cbv iota.
  destruct (in_dec Z.eq_dec c s) as [Hin|Hnin].
  - destruct (Cut_single_In s c Hin) as [after ->]. reflexivity.
  - destruct (Cut_single_notin s c Hnin) as [-> ->]. reflexivity.
Qed.

Lemma beforeSep_app_notin (c : rune) (p r : gostring) :
  ~ In c p -> beforeSep c (p ++ c :: r) = p.
Proof.
  induction p as [|x p IH]; intros Hnin; cbn [beforeSep app].
  - now rewrite Z.eqb_refl.
  - destruct (Z.eqb_spec x c) as [->|Hne].
    + exfalso. apply Hnin. now left.
    + f_equal. apply IH. intros Hin. apply Hnin. now right.
Qed.

Lemma beforeSep_app_In (c : rune) (p r : gostring) :
  In c p -> beforeSep c (p ++ r) = beforeSep c p.
Proof.
  induction p as [|x p IH]; intros Hin; [destruct Hin|].
  cbn [beforeSep app]. destruct (Z.eqb_spec x c) as [->|Hne]; [reflexivity|].
  f_equal. apply IH. destruct Hin as [Heq|Hin]; [congruence|assumption].
Qed.

Lemma beforeSep_incl (c : rune) (s : gostring) (x : rune) :
  In x (beforeSep c s) -> In x s.
Proof.
  induction s as [|y s IH]; cbn [beforeSep]; [intros []|].
  destruct (y =? c); [intros []|].
  intros [Heq|Hin]; [now left|right; now apply IH].
Qed.

End StringFacts.

(** ** Facts about the integers *)
Section IntFacts.

(** Within the range of [int] an addition is the mathematical one. *)
Lemma wrap_inRange (z : Z) : Int.inRange z -> Int.wrap z = z.
Proof.
  unfold Int.inRange, Int.wrap. intros Hz.
  rewrite Z.mod_small by lia. lia.
Qed.

Lemma add_inRange (a b : Z) : Int.inRange (a + b) -> Int.add a b = a + b.
Proof. apply wrap_inRange. Qed.

End IntFacts.

(** ** Facts about the effects *)
Section EffectFacts.

Lemma writes_app (t1 t2 : list Event) :
  writes (t1 ++ t2) = writes t1 ++ writes t2.
Proof.
  unfold writes. induction t1 as [|[f a|c] t1 IH]; simpl; [reflexivity|exact IH|].
  destruct (isWrite c); simpl; now rewrite IH.
Qed.

Lemma bind_ret_l {A B} (a : A) (f : A -> M B) : (mret a ≫= f) = f a.
Proof.
  unfold mbind, M_bind, mret, M_ret, Effects.bind, Effects.ret.
  destruct (f a) as [t r]. reflexivity.
Qed.

Lemma bind_call {A B} (c : Call) (a : A) (f : A -> M B) :
  (call c a ≫= f) = (Api c :: trace (f a), result (f a)).
Proof.
  unfold mbind, M_bind, Effects.bind, call.
  destruct (f a) as [t r]. reflexivity.
Qed.

End EffectFacts.

(** ** Lower-casing *)
Section LowerFacts.

Variable caseLower : rune -> rune.

Lemma ToLower_app (s t : gostring) :
  ToLower caseLower (s ++ t) = ToLower caseLower s ++ ToLower caseLower t.
Proof. apply List.map_app. Qed.

(** A rune of ASCII that is no capital letter is its own lower case. *)
Lemma unicode_ToLower_fixed (r : rune) :
  r <= 127 -> ~ (65 <= r <= 90) -> unicode_ToLower caseLower r = r.
Proof.
  intros Hle Hno. unfold unicode_ToLower.
  destruct (Z.leb_spec r 127) as [_|]; [|lia].
  destruct (Z.leb_spec 65 r), (Z.leb_spec r 90); simpl; lia.
Qed.

Lemma ToLower_In_fixed (s : gostring) (c : rune) :
  c <= 127 -> ~ (65 <= c <= 90) -> In c s -> In c (ToLower caseLower s).
Proof.
  intros Hle Hno Hin. rewrite <- (unicode_ToLower_fixed c Hle Hno).
  now apply List.in_map.
Qed.

Lemma unicode_ToLower_target (c : rune) :
  lowerIsLetter caseLower -> ~ (97 <= c <= 122) -> c <= 127 ->
  forall r, unicode_ToLower caseLower r = c -> r = c.
Proof.
  intros Hlow Hnl Hc r. unfold unicode_ToLower.
  destruct (Z.leb_spec r 127) as [Hle|Hgt].
  - destruct (Z.leb_spec 65 r), (Z.leb_spec r 90); simpl; lia.
  - specialize (Hlow r Hgt). lia.
Qed.

Lemma ToLower_notin (s : gostring) (c : rune) :
  lowerIsLetter caseLower -> ~ (97 <= c <= 122) -> c <= 127 ->
  ~ In c s -> ~ In c (ToLower caseLower s).
Proof.
  intros Hlow Hnl Hc Hnin Hin. apply List.in_map_iff in Hin.
  destruct Hin as [r [Heq Hr]].
  apply (unicode_ToLower_target c Hlow Hnl Hc) in Heq. subst r. contradiction.
Qed.

End LowerFacts.

(** ** The title classifier *)
Section TitleClassifier.

Variable caseLower : rune -> rune.

Lemma handleTitleBasedLabel_no_colon
    (client : Client) (owner repo : gostring) (prNumber : Z) (pr : PullRequest) :
  Contains (ToLower caseLower (Title pr)) (lit ":") = false ->
  handleTitleBasedLabel caseLower client owner repo prNumber pr
  = ([Log "PR title does not contain a colon: %s" [VString (Title pr)]], Exit 1).
Proof. intros Hc. unfold handleTitleBasedLabel. rewrite Hc. reflexivity. Qed.

Lemma lowered_title_no_colon (title : gostring) :
  lowerIsLetter caseLower ->
  ~ In 58 title ->
  Contains (ToLower caseLower title) (lit ":") = false.
Proof.
  intros Hlow Hnin. apply not_true_is_false. intros H.
  apply (Contains_single _ 58) in H.
  revert H. apply ToLower_notin; [assumption|lia|lia|assumption].
Qed.

(** C5.  A title that holds no colon makes [handleTitleBasedLabel] print
    its complaint and end the process with status 1, before any API call
    and whatever else the title holds. *)
Theorem title_without_colon_is_fatal
    (client : Client) (owner repo : gostring) (prNumber : Z) (pr : PullRequest) :
  lowerIsLetter caseLower ->
  ~ In 58 (Title pr) ->
  handleTitleBasedLabel caseLower client owner repo prNumber pr
  = ([Log "PR title does not contain a colon: %s" [VString (Title pr)]], Exit 1)
  /\ calls (trace (handleTitleBasedLabel caseLower client owner repo prNumber pr)) = [].
Proof.
  intros Hlow Hnin.
  rewrite handleTitleBasedLabel_no_colon by now apply lowered_title_no_colon.
  split; reflexivity.
Qed.

Lemma labelMap_empty_prefix : labelMap !! ([] : gostring) = None.
Proof. vm_compute. reflexivity. Qed.

(** C10.  A title that holds a colon but cleans to the empty prefix ends
    the process with status 1: the label map has no entry for the empty
    string. *)
Theorem empty_prefix_is_fatal
    (client : Client) (owner repo : gostring) (prNumber : Z) (pr : PullRequest) :
  In 58 (Title pr) ->
  cleanPrefix caseLower (Title pr) = [] ->
  handleTitleBasedLabel caseLower client owner repo prNumber pr
  = ([Log "No matching label for prefix: %s" [VString []]], Exit 1).
Proof.
  intros Hin Hclean. unfold handleTitleBasedLabel.
  assert (Hc : Contains (ToLower caseLower (Title pr)) (lit ":") = true).
  { apply (Contains_single _ 58). apply ToLower_In_fixed; [lia|lia|assumption]. }
  rewrite Hc, Hclean, labelMap_empty_prefix. reflexivity.
Qed.

(** A title that opens with the colon cleans to the empty prefix. *)
Lemma cleanPrefix_leading_colon (rest : gostring) :
  cleanPrefix caseLower (58 :: rest) = [].
Proof.
  unfold cleanPrefix. cbv zeta. change (lit ":") with [58].
  rewrite SplitN_first. cbn [beforeSep]. rewrite Z.eqb_refl. reflexivity.
Qed.

End TitleClassifier.

Lemma sampleLower_letter : lowerIsLetter sampleLower.
Proof.
  intros r Hr. unfold sampleLower.
  destruct (Z.eqb_spec r 304); [right; lia|].
  destruct (Z.eqb_spec r 8490); [right; lia|left; exact Hr].
Qed.

Lemma title_without_colon_is_fatal_witness :
  handleTitleBasedLabel sampleLower
    (clientOf (sampleHost (samplePR "feat add endpoint") [] []))
    (lit "o") (lit "r") 7 (samplePR "feat add endpoint")
  = ([Log "PR title does not contain a colon: %s"
        [VString (lit "feat add endpoint")]], Exit 1)
  /\ calls (trace (handleTitleBasedLabel sampleLower
                     (clientOf (sampleHost (samplePR "feat add endpoint") [] []))
                     (lit "o") (lit "r") 7 (samplePR "feat add endpoint"))) = [].
Proof.
  apply (title_without_colon_is_fatal sampleLower
           (clientOf (sampleHost (samplePR "feat add endpoint") [] []))
           (lit "o") (lit "r") 7 (samplePR "feat add endpoint")).
  - exact sampleLower_letter.
  - vm_compute. intuition discriminate.
Defined.

Lemma empty_prefix_is_fatal_witness :
  handleTitleBasedLabel sampleLower
    (clientOf (sampleHost (samplePR ": no prefix") [] []))
    (lit "o") (lit "r") 7 (samplePR ": no prefix")
  = ([Log "No matching label for prefix: %s" [VString []]], Exit 1).
Proof.
  apply (empty_prefix_is_fatal sampleLower
           (clientOf (sampleHost (samplePR ": no prefix") [] []))
           (lit "o") (lit "r") 7 (samplePR ": no prefix")).
  - vm_compute. left. reflexivity.
  - vm_compute. reflexivity.
Defined.

Example bracket_first_cleans_to_empty :
  cleanPrefix sampleLower (lit "(scope): x") = []
  /\ result (titleRun "(scope): x") = Exit 1.
Proof. vm_compute. split; reflexivity. Qed.

(** ** The size classifier *)
Section SizeClassifier.

Variables (client : Client) (owner repo : gostring) (prNumber : Z).

(** What a run of the rule writes when the file list arrives and the pull
    request carries no D-n label yet. *)
Lemma handleDayLabel_fresh (pr : PullRequest) files resp :
  ListFiles client owner repo prNumber None = inr (files, resp) ->
  ~ hasDayLabel pr ->
  writes (trace (handleDayLabel client owner repo prNumber pr))
  = [Issues_AddLabelsToIssue owner repo prNumber
       [dayLabelOf (totalChangesOf files)]]
  /\ result (handleDayLabel client owner repo prNumber pr) = Done tt.
Proof.
  intros Hfiles Hnone. unfold handleDayLabel.
  cbn. rewrite Hfiles.
  destruct (List.find _ (Labels pr)) as [lab|] eqn:Hfind.
  - exfalso. apply Hnone. apply List.find_some in Hfind. now exists lab.
  - cbn. destruct (AddLabelsToIssue client _ _ _ _); cbn; split; reflexivity.
Qed.

(** C2.  The label is "D-3" below 200 changed lines, "D-5" from 200 up to
    499 and "D-7" from 500 on, so 200 and 500 open the next bucket; and it
    is this label that the rule writes for the total it computed. *)
Theorem day_label_thresholds :
  (forall totalChanges : Z,
      (totalChanges < 200 -> dayLabelOf totalChanges = lit "D-3")
      /\ (200 <= totalChanges < 500 -> dayLabelOf totalChanges = lit "D-5")
      /\ (500 <= totalChanges -> dayLabelOf totalChanges = lit "D-7"))
  /\ dayLabelOf 0 = lit "D-3" /\ dayLabelOf 199 = lit "D-3"
  /\ dayLabelOf 200 = lit "D-5" /\ dayLabelOf 499 = lit "D-5"
  /\ dayLabelOf 500 = lit "D-7" /\ dayLabelOf 10000 = lit "D-7"
  /\ (forall pr files resp,
         ListFiles client owner repo prNumber None = inr (files, resp) ->
         ~ hasDayLabel pr ->
         writes (trace (handleDayLabel client owner repo prNumber pr))
         = [Issues_AddLabelsToIssue owner repo prNumber
              [dayLabelOf (totalChangesOf files)]]).
Proof.
  split; [|repeat (split; [reflexivity|])].
  - intros n. unfold dayLabelOf.
    destruct (Z.ltb_spec n 200), (Z.ltb_spec n 500);
      repeat split; intros; try reflexivity; lia.
  - intros pr files resp Hfiles Hnone.
    now destruct (handleDayLabel_fresh pr files resp Hfiles Hnone).
Qed.


End SizeClassifier.

(** ** The default reviewer rule: requested reviewers present *)
Section ReviewersPresent.

(** C8.  When the pull request already has a requested reviewer, the rule
    makes no API call at all: no contributor page is fetched and nothing
    is written. *)
Theorem reviewers_present_no_call
    (fuel : nat) (src : Rand.Source) (client : Client)
    (owner repo : gostring) (prNumber : Z) (pr : PullRequest) :
  RequestedReviewers pr <> [] ->
  assignDefaultReviewers fuel src client owner repo prNumber pr
  = ([Log "PR already has reviewers" []], Done tt)
  /\ calls (trace (assignDefaultReviewers fuel src client owner repo prNumber pr)) = [].
Proof.
  intros Hne. unfold assignDefaultReviewers.
  destruct (RequestedReviewers pr) as [|r rs]; [congruence|].
  cbn. split; reflexivity.
Qed.

End ReviewersPresent.

Lemma day_label_thresholds_witness :
  dayLabelOf 200 = lit "D-5"
  /\ writes (trace (handleDayLabel
                      (clientOf (sampleHost (samplePR "feat: x") [file 120 80] []))
                      (lit "o") (lit "r") 7 (samplePR "feat: x")))
     = [Issues_AddLabelsToIssue (lit "o") (lit "r") 7 [lit "D-5"]].
Proof.
  pose proof (day_label_thresholds
                (clientOf (sampleHost (samplePR "feat: x") [file 120 80] []))
                (lit "o") (lit "r") 7) as [Hcases [_ [_ [_ [_ [_ [_ Hrun]]]]]]].
  split.
  - apply (Hcases 200). lia.
  - apply (Hrun (samplePR "feat: x") [file 120 80] {| NextPage := 0 |}).
    + reflexivity.
    + intros [lab [Hin _]]. destruct Hin.
Defined.



Lemma reviewers_present_no_call_witness :
  assignDefaultReviewers 5 [] (clientOf (sampleHost labelledPR [] [user "carol"]))
    (lit "o") (lit "r") 7 labelledPR
  = ([Log "PR already has reviewers" []], Done tt)
  /\ calls (trace (assignDefaultReviewers 5 []
                     (clientOf (sampleHost labelledPR [] [user "carol"]))
                     (lit "o") (lit "r") 7 labelledPR)) = [].
Proof.
  apply (reviewers_present_no_call 5 []
           (clientOf (sampleHost labelledPR [] [user "carol"]))
           (lit "o") (lit "r") 7 labelledPR).
  discriminate.
Defined.

(** ** The size classifier and pagination *)
Section SizePagination.

Variables (owner repo : gostring) (prNumber : Z).

(** [handleDayLabel] passes no list options and reads one response, so
    what it sums is the first page of 30 files. *)
Lemma handleDayLabel_sums_first_page (h : Host) (pr : PullRequest) :
  outage (files h) 1%nat = None ->
  ~ hasDayLabel pr ->
  writes (trace (handleDayLabel (clientOf h) owner repo prNumber pr))
  = [Issues_AddLabelsToIssue owner repo prNumber
       [dayLabelOf (totalChangesOf (take 30 (items (files h))))]].
Proof.
  intros Hup Hnone.
  refine (proj1 (handleDayLabel_fresh (clientOf h) owner repo prNumber pr
                   (take 30 (items (files h))) _ _ Hnone)).
  cbn. unfold servePage. cbn. rewrite Hup. reflexivity.
Qed.

End SizePagination.

(** C1.  On a pull request of 31 changed files the rule labels by the 30
    lines of the first page ("D-3"), while the sum over all changed files
    is 1030 and calls for "D-7". *)
Theorem day_label_ignores_later_pages :
  writes (trace (handleDayLabel
                   (clientOf (sampleHost (samplePR "feat: x") manyFiles []))
                   (lit "o") (lit "r") 7 (samplePR "feat: x")))
  = [Issues_AddLabelsToIssue (lit "o") (lit "r") 7 [lit "D-3"]]
  /\ totalChangesOf manyFiles = 1030
  /\ dayLabelOf (totalChangesOf manyFiles) = lit "D-7".
Proof. vm_compute. repeat split; reflexivity. Qed.

(** ** Splitting on a one-rune separator *)
Section SplitFacts.

Lemma Cut_single (s : gostring) (c : rune) :
  Cut s [c]
  = if in_dec Z.eq_dec c s then Some (beforeSep c s, afterSep c s) else None.
Proof.
  induction s as [|x s IH]; [reflexivity|].
  cbn [Cut beforeSep afterSep]. rewrite HasPrefix_single, IH.
  destruct (Z.eqb_spec x c) as [->|Hne].
  - destruct (in_dec Z.eq_dec c (c :: s)) as [_|Hn]; [reflexivity|].
    exfalso. apply Hn. now left.
  - destruct (in_dec Z.eq_dec c s) as [Hin|Hnin],
             (in_dec Z.eq_dec c (x :: s)) as [Hin'|Hnin']; try reflexivity.
    + exfalso. apply Hnin'. now right.
    + exfalso. destruct Hin' as [Heq|Hin']; [congruence|contradiction].
Qed.

Lemma afterSep_length (c : rune) (s : gostring) :
  In c s -> (length (afterSep c s) < length s)%nat.
Proof.
  induction s as [|x s IH]; intros Hin; [destruct Hin|].
  cbn [afterSep length]. destruct (Z.eqb_spec x c) as [->|Hne]; [lia|].
  destruct Hin as [Heq|Hin]; [congruence|]. specialize (IH Hin). lia.
Qed.

Lemma afterSep_count (c : rune) (s : gostring) :
  In c s -> count_occ Z.eq_dec s c = S (count_occ Z.eq_dec (afterSep c s) c).
Proof.
  induction s as [|x s IH]; intros Hin; [destruct Hin|].
  cbn [afterSep count_occ]. destruct (Z.eqb_spec x c) as [->|Hne].
  - destruct (Z.eq_dec c c); [reflexivity|congruence].
  - destruct (Z.eq_dec x c); [congruence|].
    destruct Hin as [Heq|Hin]; [congruence|now apply IH].
Qed.

Lemma genSplit_all_length (c : rune) (fuel : nat) :
  forall (s : gostring) (n : Z),
    (length s < fuel)%nat -> n < 0 ->
    length (genSplit fuel s [c] n) = S (count_occ Z.eq_dec s c).
Proof.
  induction fuel as [|fuel IH]; intros s n Hfuel Hn; [lia|].
  cbn [genSplit].
  destruct (Z.eqb_spec n 0); [lia|]. destruct (Z.eqb_spec n 1); [lia|].
  rewrite Cut_single. destruct (in_dec Z.eq_dec c s) as [Hd|Hd].
  - cbn [length]. rewrite IH.
    + now rewrite (afterSep_count c s Hd).
    + pose proof (afterSep_length c s Hd). lia.
    + lia.
  - cbn [length]. f_equal. symmetry.
    apply (proj1 (count_occ_not_In Z.eq_dec s c)). exact Hd.
Qed.

(** [Split] yields one piece more than there are separators. *)
Lemma Split_length (s : gostring) (c : rune) :
  length (Split s [c]) = S (count_occ Z.eq_dec s c).
Proof. unfold Split, SplitN. apply genSplit_all_length; lia. Qed.

Lemma beforeSep_afterSep_cut (c : rune) (p r : gostring) :
  ~ In c p -> beforeSep c (p ++ c :: r) = p /\ afterSep c (p ++ c :: r) = r.
Proof.
  intros Hnin. split; [now apply beforeSep_app_notin|].
  induction p as [|x p IH]; cbn [afterSep app].
  - now rewrite Z.eqb_refl.
  - destruct (Z.eqb_spec x c) as [->|Hne].
    + exfalso. apply Hnin. now left.
    + apply IH. intros Hin. apply Hnin. now right.
Qed.

(** A text with exactly one separator splits into what stands before and
    after it, either of which may be empty. *)
Lemma Split_two (c : rune) (p r : gostring) :
  ~ In c p -> ~ In c r -> Split (p ++ c :: r) [c] = [p; r].
Proof.
  intros Hp Hr. unfold Split, SplitN. cbn [genSplit].
  change (-1 =? 0) with false. change (-1 =? 1) with false. cbv iota.
  rewrite Cut_single.
  destruct (in_dec Z.eq_dec c (p ++ c :: r)) as [_|Hn];
    [|exfalso; apply Hn, List.in_or_app; right; now left].
  destruct (beforeSep_afterSep_cut c p r Hp) as [-> ->].
  rewrite length_app. cbn [length].
  replace (length p + S (length r))%nat with (S (length p + length r)) by lia.
  cbn [genSplit]. change (-1 - 1 =? 0) with false.
  change (-1 - 1 =? 1) with false. cbv iota.
  rewrite Cut_single.
  destruct (in_dec Z.eq_dec c r) as [Hin|_]; [contradiction|reflexivity].
Qed.

End SplitFacts.

(** ** Start-up validation *)
Section Startup.

Variable caseLower : rune -> rune.
Variable getenv : string -> gostring.
Variable newGitHubClient : gostring -> Client.
Variables (fuel : nat) (src : Rand.Source).

Lemma eqb_nil (s : gostring) : GoString.eqb s [] = false <-> s <> [].
Proof.
  unfold GoString.eqb. split.
  - intros H. now apply bool_decide_eq_false_1 in H.
  - intros H. now apply bool_decide_eq_false_2.
Qed.

(** With the three inputs in order, [main] comes down to the fetch of the
    pull request and the four rules. *)
Lemma main_valid_inputs (owner name : gostring) (n : Z) :
  getenv "GITHUB_TOKEN" <> [] ->
  getenv "GITHUB_REPOSITORY" = owner ++ 47 :: name ->
  ~ In 47 owner -> ~ In 47 name ->
  getenv "PR_NUMBER" <> [] ->
  Int.Atoi (getenv "PR_NUMBER") = inr n ->
  main caseLower getenv newGitHubClient fuel src
  = (let client := newGitHubClient (getenv "GITHUB_TOKEN") in
     r ← getPullRequest client owner name n;
     pr ← match r with
          | inr pr => mret pr
          | inl err =>
              log_Fatalf "Failed to get PR #%d: %v" [VInt n; VError err]
          end;
     handleTitleBasedLabel caseLower client owner name n pr;;
     handleDayLabel client owner name n pr;;
     assignDefaultAssignee client owner name n pr;;
     assignDefaultReviewers fuel src client owner name n pr).
Proof.
  intros Htok Hrepo Ho Hn Hpr Hnum. unfold main. cbv zeta.
  apply eqb_nil in Htok. rewrite Htok.
  assert (Hne : getenv "GITHUB_REPOSITORY" <> []).
  { rewrite Hrepo. now destruct owner. }
  apply eqb_nil in Hne. rewrite Hne.
  apply eqb_nil in Hpr. rewrite Hpr.
  change (lit "/") with [47]. rewrite Hrepo, Split_two by assumption.
  rewrite Hnum.
  change (negb (length [owner; name] =? 2)%nat) with false. cbv iota.
  rewrite !bind_ret_l. reflexivity.
Qed.

(** When the title rule ends the process, so does the run: the later rules
    make no call. *)
Lemma main_stops_with_title_rule (owner name : gostring) (n : Z)
    (pr : PullRequest) (t : list Event) (code : Z) :
  getenv "GITHUB_TOKEN" <> [] ->
  getenv "GITHUB_REPOSITORY" = owner ++ 47 :: name ->
  ~ In 47 owner -> ~ In 47 name ->
  getenv "PR_NUMBER" <> [] ->
  Int.Atoi (getenv "PR_NUMBER") = inr n ->
  Get (newGitHubClient (getenv "GITHUB_TOKEN")) owner name n = inr pr ->
  handleTitleBasedLabel caseLower (newGitHubClient (getenv "GITHUB_TOKEN"))
    owner name n pr = (t, Exit code) ->
  main caseLower getenv newGitHubClient fuel src
  = (Api (PullRequests_Get owner name n) :: t, Exit code).
Proof.
  intros Htok Hrepo Ho Hn Hpr Hnum Hget Htitle.
  rewrite (main_valid_inputs owner name n) by assumption.
  cbv zeta. unfold getPullRequest. rewrite bind_call, Hget, bind_ret_l, Htitle.
  reflexivity.
Qed.

(** C3, as the code has it.  The run ends with one diagnostic line and
    status 1, before any API call, whenever the repository identifier
    does not hold exactly one [/] (an absent identifier holds none).  An
    identifier with exactly one [/] passes, whether or not the texts
    around the [/] are empty: with the other inputs in order the
    pull request is fetched under that owner and name. *)
Theorem repository_validation :
  (count_occ Z.eq_dec (getenv "GITHUB_REPOSITORY") 47 <> 1%nat ->
   exists msg,
     main caseLower getenv newGitHubClient fuel src = ([Log msg []], Exit 1))
  /\ (forall (owner name : gostring) (n : Z),
         getenv "GITHUB_TOKEN" <> [] ->
         getenv "GITHUB_REPOSITORY" = owner ++ 47 :: name ->
         ~ In 47 owner -> ~ In 47 name ->
         getenv "PR_NUMBER" <> [] ->
         Int.Atoi (getenv "PR_NUMBER") = inr n ->
         exists t r,
           main caseLower getenv newGitHubClient fuel src
           = (Api (PullRequests_Get owner name n) :: t, r)).
Proof.
  split.
  - intros Hcount. unfold main. cbv zeta.
    destruct (GoString.eqb (getenv "GITHUB_TOKEN") []);
      [eexists; reflexivity|].
    destruct (GoString.eqb (getenv "GITHUB_REPOSITORY") []);
      [eexists; reflexivity|].
    change (lit "/") with [47]. rewrite Split_length.
    destruct (Nat.eqb_spec (S (count_occ Z.eq_dec (getenv "GITHUB_REPOSITORY") 47)) 2)
      as [Heq|Hne]; [lia|].
    eexists; reflexivity.
  - intros owner name n Htok Hrepo Ho Hn Hpr Hnum.
    rewrite (main_valid_inputs owner name n) by assumption.
    cbv zeta. unfold getPullRequest. rewrite bind_call.
    eexists _, _. reflexivity.
Qed.

End Startup.

(** C3, counterexample.  The identifier [/name] has an empty owner, yet the
    run passes validation, fetches the pull request of owner [""] and
    runs all four rules to a normal end. *)
Lemma empty_owner_passes_validation :
  twoNonEmptyParts (lit "/name") = false
  /\ result (sampleRun "/name") = Done tt
  /\ calls (trace (sampleRun "/name"))
     = [PullRequests_Get [] (lit "name") 7;
        Issues_AddLabelsToIssue [] (lit "name") 7 [lit "bug"];
        PullRequests_ListFiles [] (lit "name") 7 None;
        Issues_AddLabelsToIssue [] (lit "name") 7 [lit "D-3"];
        Issues_AddAssignees [] (lit "name") 7 [lit "alice"];
        Repositories_ListContributors [] (lit "name") {| Page := 0; PerPage := 100 |};
        PullRequests_RequestReviewers [] (lit "name") 7 [lit "bob"]].
Proof. vm_compute. repeat split; reflexivity. Qed.

Lemma repository_validation_witness :
  (exists msg, sampleRun "owner/name/extra" = ([Log msg []], Exit 1))
  /\ (exists t r, sampleRun "owner/" = (Api (PullRequests_Get (lit "owner") [] 7) :: t, r)).
Proof.
  pose proof (repository_validation sampleLower (sampleEnv "owner/name/extra")
                (fun _ => clientOf (sampleHost (samplePR "fix: typo") [file 3 1] [user "bob"]))
                5 []) as [Hbad _].
  pose proof (repository_validation sampleLower (sampleEnv "owner/")
                (fun _ => clientOf (sampleHost (samplePR "fix: typo") [file 3 1] [user "bob"]))
                5 []) as [_ Hgood].
  split.
  - apply Hbad. vm_compute. lia.
  - apply (Hgood (lit "owner") [] 7).
    + vm_compute. discriminate.
    + reflexivity.
    + vm_compute. intuition discriminate.
    + intros [].
    + vm_compute. discriminate.
    + reflexivity.
Defined.

(** ** Shuffling *)
Section ShuffleFacts.

Context {A : Type}.

Lemma insert_Permutation_cons (l : list A) (j : nat) (x y : A) :
  l !! j = Some y -> y :: <[j := x]> l ≡ₚ x :: l.
Proof.
  revert j. induction l as [|z l IH]; intros [|j] Hj; try discriminate.
  - cbn in Hj |- *. injection Hj as ->. apply perm_swap.
  - cbn in Hj |- *.
    transitivity (z :: y :: <[j := x]> l); [apply perm_swap|].
    transitivity (z :: x :: l); [|apply perm_swap].
    constructor. now apply IH.
Qed.

Lemma swap_Permutation (l : list A) (i j : nat) : Rand.swap l i j ≡ₚ l.
Proof.
  unfold Rand.swap.
  destruct (l !! i) as [x|] eqn:Hi; [|reflexivity].
  destruct (l !! j) as [y|] eqn:Hj; [|reflexivity].
  revert i j Hi Hj. induction l as [|z l IH]; intros [|i] [|j] Hi Hj;
    try discriminate.
  - injection Hi as ->. injection Hj as ->. reflexivity.
  - injection Hi as ->. cbn in Hj |- *. now apply insert_Permutation_cons.
  - injection Hj as ->. cbn in Hi |- *. now apply insert_Permutation_cons.
  - cbn in Hi, Hj |- *. constructor. now apply IH.
Qed.

Lemma shuffleFrom_Permutation (i : nat) :
  forall (src : Rand.Source) (l : list A), Rand.shuffleFrom i src l ≡ₚ l.
Proof.
  induction i as [|i IH]; intros src l; [reflexivity|].
  cbn [Rand.shuffleFrom]. destruct (Rand.Int31n (S (S i)) src) as [j src'].
  rewrite IH. apply swap_Permutation.
Qed.

Lemma Shuffle_Permutation (n : nat) (src : Rand.Source) (l : list A) :
  Rand.Shuffle n src l ≡ₚ l.
Proof. apply shuffleFrom_Permutation. Qed.

(** A prefix of a shuffled duplicate-free list: as long as asked for (when
    the list is long enough), duplicate-free, and drawn from the list. *)
Lemma take_Shuffle (k n : nat) (src : Rand.Source) (l : list A) :
  (k <= length l)%nat -> List.NoDup l ->
  length (take k (Rand.Shuffle n src l)) = k
  /\ List.NoDup (take k (Rand.Shuffle n src l))
  /\ (forall x, In x (take k (Rand.Shuffle n src l)) -> In x l).
Proof.
  intros Hk Hnd. pose proof (Shuffle_Permutation n src l) as Hperm.
  split; [|split].
  - rewrite length_take, (Permutation_length Hperm). lia.
  - apply NoDup_ListNoDup in Hnd. apply NoDup_ListNoDup.
    rewrite <- Hperm in Hnd.
    rewrite <- (take_drop k (Rand.Shuffle n src l)) in Hnd.
    now apply NoDup_app in Hnd.
  - intros x Hin. apply list_elem_of_In in Hin. apply list_elem_of_In.
    rewrite <- Hperm. apply elem_of_take in Hin as [i [Hi _]].
    apply list_elem_of_lookup. now exists i.
Qed.

End ShuffleFacts.

(** ** The contributor loop *)
Section ContributorLoop.

Variables (owner repo author : gostring).

Lemma contributorPool_app (cs ds : list Contributor) :
  contributorPool author (cs ++ ds) = contributorPool author cs ++ contributorPool author ds.
Proof. unfold contributorPool. now rewrite List.map_app, List.filter_app. Qed.

Lemma contributorPool_author_free (cs : list Contributor) :
  ~ In author (contributorPool author cs).
Proof.
  unfold contributorPool. intros Hin. apply List.filter_In in Hin as [_ Hne].
  unfold GoString.eqb in Hne. rewrite bool_decide_eq_true_2 in Hne by reflexivity.
  discriminate.
Qed.

Lemma appendPage_pool (contributor : list Contributor) :
  forall contributors,
    appendPage author contributors contributor
    = contributors ++ contributorPool author contributor.
Proof.
  unfold appendPage, contributorPool.
  induction contributor as [|c cs IH]; intros acc; cbn [fold_left List.map List.filter].
  - now rewrite app_nil_r.
  - rewrite IH. destruct (GoString.eqb (Login c) author); cbn [negb].
    + reflexivity.
    + now rewrite <- app_assoc.
Qed.

Lemma listAllContributors_step (client : Client) (fuel : nat)
    (opts : ListOptions) (contributors : list gostring) :
  listAllContributors (S fuel) client owner repo author opts contributors
  = match ListContributors client owner repo opts with
    | inl err =>
        ([Api (Repositories_ListContributors owner repo opts);
          Log "Failed to list contributors: %v" [VError err]],
         Done contributors)
    | inr (contributor, resp) =>
        if NextPage resp =? 0
        then ([Api (Repositories_ListContributors owner repo opts)],
              Done (appendPage author contributors contributor))
        else
          let rest :=
            listAllContributors fuel client owner repo author
              {| Page := NextPage resp; PerPage := PerPage opts |}
              (appendPage author contributors contributor) in
          (Api (Repositories_ListContributors owner repo opts) :: trace rest,
           result rest)
    end.
Proof.
  cbn [listAllContributors]. rewrite bind_call.
  destruct (ListContributors client owner repo opts) as [err|[contributor resp]].
  - reflexivity.
  - destruct (NextPage resp =? 0); reflexivity.
Qed.

(** Whatever the client answers: a finished loop has made no write call
    and has only added logins other than the author's. *)
Lemma listAllContributors_safe (client : Client) (fuel : nat) :
  forall opts contributors t pool,
    listAllContributors fuel client owner repo author opts contributors
    = (t, Done pool) ->
    writes t = []
    /\ exists added, pool = contributors ++ added /\ ~ In author added.
Proof.
  induction fuel as [|fuel IH]; intros opts acc t pool Hrun; [discriminate|].
  rewrite listAllContributors_step in Hrun.
  destruct (ListContributors client owner repo opts) as [err|[contributor resp]].
  - injection Hrun as <- <-. split; [reflexivity|].
    exists []. split; [now rewrite app_nil_r|intros []].
  - destruct (NextPage resp =? 0).
    + injection Hrun as <- <-. split; [reflexivity|].
      exists (contributorPool author contributor).
      split; [apply appendPage_pool|apply contributorPool_author_free].
    + cbv zeta in Hrun.
      destruct (listAllContributors fuel client owner repo author _ _)
        as [t' r'] eqn:Hrest.
      cbn [trace result fst snd] in Hrun. injection Hrun as <- ->.
      destruct (IH _ _ _ _ Hrest) as [Hw [added [-> Hfree]]].
      split; [exact Hw|].
      exists (contributorPool author contributor ++ added). split.
      * now rewrite appendPage_pool, app_assoc.
      * intros Hin. apply List.in_app_or in Hin as [Hin|Hin];
          [now apply contributorPool_author_free in Hin|contradiction].
Qed.

(** Against the hosting service the loop ends as soon as the fuel exceeds
    the number of contributors, with the pool of a leading part of the
    collection: all of it when no request fails. *)
Lemma listAllContributors_host (h : Host) (fuel : nat) :
  forall opts contributors,
    PerPage opts = 100 ->
    (length (items (Hosting.contributors h))
     - (pageOf (Some opts) - 1) * 100 < fuel)%nat ->
    exists t k,
      listAllContributors fuel (clientOf h) owner repo author opts contributors
      = (t, Done (contributors
                  ++ contributorPool author
                       (take k (drop ((pageOf (Some opts) - 1) * 100)
                                  (items (Hosting.contributors h))))))
      /\ ((forall q, outage (Hosting.contributors h) q = None) ->
          take k (drop ((pageOf (Some opts) - 1) * 100)
                    (items (Hosting.contributors h)))
          = drop ((pageOf (Some opts) - 1) * 100)
              (items (Hosting.contributors h))).
Proof.
  induction fuel as [|fuel IH]; intros opts acc Hpp Hfuel; [lia|].
  rewrite listAllContributors_step.
  change (ListContributors (clientOf h) owner repo opts)
    with (servePage (Hosting.contributors h) (Some opts)).
  unfold servePage.
  assert (Hper : perPageOf (Some opts) = 100%nat).
  { unfold perPageOf. rewrite Hpp. reflexivity. }
  rewrite Hper.
  assert (Hp : (1 <= pageOf (Some opts))%nat).
  { unfold pageOf. destruct (Z.leb_spec (Page opts) 0); lia. }
  set (p := pageOf (Some opts)) in *.
  set (cs := items (Hosting.contributors h)) in *.
  destruct (outage (Hosting.contributors h) p) as [err|] eqn:Hout.
  - eexists _, 0%nat. split.
    + cbn [take]. unfold contributorPool at 1. cbn. now rewrite app_nil_r.
    + intros Hup. rewrite Hup in Hout. discriminate.
  - cbn [NextPage]. destruct (Nat.ltb_spec (p * 100) (length cs)) as [Hlt|Hge].
    + replace (Z.of_nat (S p) =? 0) with false by (symmetry; apply Z.eqb_neq; lia).
      cbv zeta.
      set (opts' := {| Page := Z.of_nat (S p); PerPage := PerPage opts |}).
      assert (Hp' : pageOf (Some opts') = S p).
      { unfold pageOf, opts'. cbn [Page].
        destruct (Z.leb_spec (Z.of_nat (S p)) 0); lia. }
      destruct (IH opts' (appendPage author acc (take 100 (drop ((p - 1) * 100) cs))))
        as [t [k [Hrest Hall]]].
      * exact Hpp.
      * rewrite Hp'. fold cs. lia.
      * rewrite Hrest. cbn [trace result fst snd].
        rewrite Hp' in Hall |- *. fold cs in Hall |- *.
        replace (S p - 1)%nat with p in Hall |- * by lia.
        assert (Hdrop : drop (p * 100) cs = drop 100 (drop ((p - 1) * 100) cs)).
        { rewrite drop_drop. f_equal. lia. }
        rewrite Hdrop in Hall |- *.
        eexists _, (100 + k)%nat. split.
        -- f_equal. f_equal.
           rewrite appendPage_pool, <- app_assoc. f_equal.
           rewrite <- contributorPool_app. f_equal.
           now rewrite take_take_drop.
        -- intros Hup. rewrite <- take_take_drop, (Hall Hup).
           apply take_drop.
    + cbn [Z.eqb]. eexists _, 100%nat. split.
      * now rewrite appendPage_pool.
      * intros _. apply take_ge. rewrite length_drop. lia.
Qed.

End ContributorLoop.

(** ** The default reviewer rule *)
Section ReviewerRule.

Variables (owner repo : gostring) (prNumber : Z).

Lemma assignDefaultReviewers_run (fuel : nat) (src : Rand.Source)
    (client : Client) (pr : PullRequest) t pool :
  RequestedReviewers pr = [] ->
  listAllContributors fuel client owner repo (User pr) firstPage [] = (t, Done pool) ->
  assignDefaultReviewers fuel src client owner repo prNumber pr
  = (t ++ trace (requestReviewers src client owner repo prNumber pr pool),
     result (requestReviewers src client owner repo prNumber pr pool)).
Proof.
  intros Hnone Hloop. unfold assignDefaultReviewers. rewrite Hnone.
  cbn [length Nat.eqb negb]. fold firstPage. rewrite Hloop.
  unfold mbind, M_bind, Effects.bind.
  destruct (requestReviewers src client owner repo prNumber pr pool). reflexivity.
Qed.

Lemma requestReviewers_request (src : Rand.Source) (client : Client)
    (pr : PullRequest) (pool : list gostring) :
  pool <> [] -> ~ In (User pr) pool ->
  writes (trace (requestReviewers src client owner repo prNumber pr pool))
  = [PullRequests_RequestReviewers owner repo prNumber (reviewersOf src pool)]
  /\ result (requestReviewers src client owner repo prNumber pr pool) = Done tt.
Proof.
  intros Hne Hfree. unfold requestReviewers.
  assert (Hguard :
    (length pool =? 0)%nat
    || ((length pool =? 1)%nat
        && GoString.eqb (default [] (pool !! 0%nat)) (User pr)) = false).
  { destruct pool as [|c pool]; [congruence|]. cbn.
    destruct pool as [|d pool]; [|reflexivity]. cbn.
    unfold GoString.eqb. apply bool_decide_eq_false_2.
    intros ->. apply Hfree. now left. }
  rewrite Hguard. fold (reviewersOf src pool). rewrite bind_call.
  destruct (RequestReviewers client owner repo prNumber (reviewersOf src pool));
    split; reflexivity.
Qed.

Lemma reviewers_of_pool (fuel : nat) (src : Rand.Source) (client : Client)
    (pr : PullRequest) t pool :
  RequestedReviewers pr = [] ->
  listAllContributors fuel client owner repo (User pr) firstPage [] = (t, Done pool) ->
  ~ In (User pr) pool
  /\ (pool <> [] ->
      writes (trace (assignDefaultReviewers fuel src client owner repo prNumber pr))
      = [PullRequests_RequestReviewers owner repo prNumber (reviewersOf src pool)]
      /\ result (assignDefaultReviewers fuel src client owner repo prNumber pr)
         = Done tt).
Proof.
  intros Hnone Hloop.
  destruct (listAllContributors_safe _ _ _ _ _ _ _ _ _ Hloop)
    as [Hw [added [Hpool Hfree]]].
  cbn [app] in Hpool. subst added. split; [exact Hfree|].
  intros Hne. rewrite (assignDefaultReviewers_run fuel src client pr t pool Hnone Hloop).
  cbn [trace result fst snd]. rewrite writes_app, Hw.
  exact (requestReviewers_request src client pr pool Hne Hfree).
Qed.

(** C4, as the code has it.  The pool is what the loop gathers: the logins
    as the service lists them, the author's left out, with no
    deduplication by the program.  When this pool is duplicate-free and
    holds more than 10 logins, the one reviewer request carries exactly 10
    of them, all different and all from the pool; with 1 to 10 logins it
    carries the pool as it is.  Against the hosting service the loop does finish
    once the fuel exceeds the number of contributors, and a listing of
    distinct logins gives a duplicate-free pool. *)
Theorem reviewer_request_size :
  (forall (fuel : nat) (src : Rand.Source) (client : Client) (pr : PullRequest)
          (t : list Event) (pool : list gostring),
      RequestedReviewers pr = [] ->
      listAllContributors fuel client owner repo (User pr) firstPage []
      = (t, Done pool) ->
      ((10 < length pool)%nat ->
       List.NoDup pool ->
       exists reviewers,
         writes (trace (assignDefaultReviewers fuel src client owner repo prNumber pr))
         = [PullRequests_RequestReviewers owner repo prNumber reviewers]
         /\ length reviewers = 10%nat
         /\ List.NoDup reviewers
         /\ (forall login, In login reviewers -> In login pool))
      /\ ((0 < length pool <= 10)%nat ->
          writes (trace (assignDefaultReviewers fuel src client owner repo prNumber pr))
          = [PullRequests_RequestReviewers owner repo prNumber pool]))
  /\ (forall (h : Host) (fuel : nat) (author : gostring),
         (length (items (Hosting.contributors h)) < fuel)%nat ->
         List.NoDup (List.map Login (items (Hosting.contributors h))) ->
         exists t pool,
           listAllContributors fuel (clientOf h) owner repo author firstPage []
           = (t, Done pool)
           /\ List.NoDup pool
           /\ ((forall q, outage (Hosting.contributors h) q = None) ->
               pool = contributorPool author (items (Hosting.contributors h)))).
Proof.
  split.
  - intros fuel src client pr t pool Hnone Hloop.
    destruct (reviewers_of_pool fuel src client pr t pool Hnone Hloop)
      as [Hfree Hreq].
    split.
    + intros Hbig Hnd. assert (Hne : pool <> []) by (destruct pool; cbn in *; [lia|congruence]).
      destruct (Hreq Hne) as [Hw _]. rewrite Hw. unfold reviewersOf.
      destruct (Nat.ltb_spec 10 (length pool)) as [_|]; [|lia].
      eexists. split; [reflexivity|].
      apply take_Shuffle; [lia|exact Hnd].
    + intros Hsmall. assert (Hne : pool <> []) by (destruct pool; cbn in *; [lia|congruence]).
      destruct (Hreq Hne) as [Hw _]. rewrite Hw. unfold reviewersOf.
      destruct (Nat.ltb_spec 10 (length pool)) as [|_]; [lia|reflexivity].
  - intros h fuel author Hfuel Hnd.
    destruct (listAllContributors_host owner repo author h fuel firstPage [])
      as [t [k [Hrun Hall]]]; [reflexivity|cbn; lia|].
    change ((pageOf (Some firstPage) - 1) * 100)%nat with 0%nat in Hrun, Hall.
    cbn [skipn app] in Hrun, Hall. exists t, (contributorPool author (take k (items (Hosting.contributors h)))).
    split; [exact Hrun|]. split.
    + unfold contributorPool. apply List.NoDup_filter.
      rewrite <- (take_drop k (items (Hosting.contributors h))), List.map_app in Hnd.
      now apply List.NoDup_app_remove_r in Hnd.
    + intros Hup. f_equal. exact (Hall Hup).
Qed.

(** C9.  The pool the loop gathers never holds the author's login, so the
    comparison of a one-element pool with the author is always false, and
    a pool of one login leads to a request for exactly that login.
    Against the hosting service the loop does finish once the fuel
    exceeds the number of contributors. *)
Theorem pool_excludes_author :
  (forall (fuel : nat) (src : Rand.Source) (client : Client) (pr : PullRequest)
          (t : list Event) (pool : list gostring),
      RequestedReviewers pr = [] ->
      listAllContributors fuel client owner repo (User pr) firstPage []
      = (t, Done pool) ->
      ~ In (User pr) pool
      /\ (length pool =? 1)%nat
         && GoString.eqb (default [] (pool !! 0%nat)) (User pr) = false
      /\ (forall login,
             pool = [login] ->
             login <> User pr
             /\ writes (trace (assignDefaultReviewers fuel src client owner repo
                                 prNumber pr))
                = [PullRequests_RequestReviewers owner repo prNumber [login]]
             /\ result (assignDefaultReviewers fuel src client owner repo
                          prNumber pr) = Done tt))
  /\ (forall (h : Host) (fuel : nat) (author : gostring),
         (length (items (Hosting.contributors h)) < fuel)%nat ->
         exists t pool,
           listAllContributors fuel (clientOf h) owner repo author firstPage []
           = (t, Done pool)
           /\ ~ In author pool).
Proof.
  split.
  - intros fuel src client pr t pool Hnone Hloop.
    destruct (reviewers_of_pool fuel src client pr t pool Hnone Hloop)
      as [Hfree Hreq].
    split; [exact Hfree|]. split.
    + destruct pool as [|c [|d pool]]; try reflexivity. cbn.
      unfold GoString.eqb. apply bool_decide_eq_false_2.
      intros ->. apply Hfree. now left.
    + intros login ->. split.
      * intros ->. apply Hfree. now left.
      * apply Hreq. discriminate.
  - intros h fuel author Hfuel.
    destruct (listAllContributors_host owner repo author h fuel firstPage [])
      as [t [k [Hrun _]]]; [reflexivity|cbn; lia|].
    cbn [app] in Hrun. eexists _, _. split; [exact Hrun|].
    apply contributorPool_author_free.
Qed.

End ReviewerRule.

Lemma NoDup_by_decide (l : list gostring) :
  bool_decide (NoDup l) = true -> List.NoDup l.
Proof. intros H. apply NoDup_ListNoDup. now apply bool_decide_eq_true_1 in H. Qed.

Example crowd_request :
  writes (trace (ruleRun crowd))
  = [PullRequests_RequestReviewers (lit "o") (lit "r") 7
       [lit "u09"; lit "u12"; lit "u08"; lit "u13"; lit "u01";
        lit "u15"; lit "u11"; lit "u07"; lit "u03"; lit "u10"]].
Proof. vm_compute. reflexivity. Qed.

Lemma reviewer_request_size_witness :
  (exists reviewers,
      writes (trace (ruleRun crowd))
      = [PullRequests_RequestReviewers (lit "o") (lit "r") 7 reviewers]
      /\ length reviewers = 10%nat
      /\ List.NoDup reviewers
      /\ (forall login, In login reviewers ->
                        In login (contributorPool (lit "alice") crowd)))
  /\ writes (trace (ruleRun trio))
     = [PullRequests_RequestReviewers (lit "o") (lit "r") 7
          [lit "bob"; lit "carol"; lit "dave"]]
  /\ (exists t pool,
         loopRun crowd = (t, Done pool)
         /\ List.NoDup pool
         /\ ((forall q, outage (Hosting.contributors (sampleHost pr0 [] crowd)) q = None) ->
             pool = contributorPool (lit "alice") crowd)).
Proof.
  pose proof (reviewer_request_size (lit "o") (lit "r") 7) as [Hrule Hhost].
  split; [|split].
  - apply (Hrule 20%nat draws (clientFor crowd) pr0 (trace (loopRun crowd))
             (contributorPool (lit "alice") crowd)).
    + reflexivity.
    + vm_compute. reflexivity.
    + vm_compute. lia.
    + apply NoDup_by_decide. vm_compute. reflexivity.
  - apply (Hrule 20%nat draws (clientFor trio) pr0 (trace (loopRun trio))
             (contributorPool (lit "alice") trio)).
    + reflexivity.
    + vm_compute. reflexivity.
    + vm_compute. lia.
  - apply (Hhost (sampleHost pr0 [] crowd) 20%nat (lit "alice")).
    + vm_compute. lia.
    + apply NoDup_by_decide. vm_compute. reflexivity.
Defined.

(** C4, counterexample.  The service lists ten contributors and the first
    of them once more.  Deduplicated, the pool has 10 logins and would be
    requested whole; the rule works on the 11 logins as listed, samples,
    and requests "u01" twice while "u04" is left out. *)
Lemma repeated_login_requested_twice :
  result (loopRun repeated) = Done (contributorPool (lit "alice") repeated)
  /\ length (contributorPool (lit "alice") repeated) = 11%nat
  /\ length (remove_dups (contributorPool (lit "alice") repeated)) = 10%nat
  /\ writes (trace (ruleRun repeated))
     = [PullRequests_RequestReviewers (lit "o") (lit "r") 7
          [lit "u01"; lit "u08"; lit "u07"; lit "u09"; lit "u03";
           lit "u01"; lit "u06"; lit "u10"; lit "u05"; lit "u02"]]
  /\ ~ List.NoDup [lit "u01"; lit "u08"; lit "u07"; lit "u09"; lit "u03";
                   lit "u01"; lit "u06"; lit "u10"; lit "u05"; lit "u02"]
  /\ ~ In (lit "u04") [lit "u01"; lit "u08"; lit "u07"; lit "u09"; lit "u03";
                       lit "u01"; lit "u06"; lit "u10"; lit "u05"; lit "u02"].
Proof.
  split; [vm_compute; reflexivity|].
  split; [vm_compute; reflexivity|].
  split; [vm_compute; reflexivity|].
  split; [vm_compute; reflexivity|].
  split.
  - intros Hnd. apply NoDup_ListNoDup in Hnd.
    apply (bool_decide_eq_true_2 _) in Hnd. vm_compute in Hnd. discriminate.
  - vm_compute. intuition discriminate.
Qed.

Lemma pool_excludes_author_witness :
  (~ In (lit "alice") (contributorPool (lit "alice") [user "alice"; user "bob"])
   /\ writes (trace (assignDefaultReviewers 20 draws
                       (clientFor [user "alice"; user "bob"])
                       (lit "o") (lit "r") 7 pr0))
      = [PullRequests_RequestReviewers (lit "o") (lit "r") 7 [lit "bob"]])
  /\ (exists t pool,
         loopRun crowd = (t, Done pool) /\ ~ In (lit "alice") pool).
Proof.
  pose proof (pool_excludes_author (lit "o") (lit "r") 7) as [Hrule Hhost].
  split.
  - destruct (Hrule 20%nat draws (clientFor [user "alice"; user "bob"]) pr0
                (trace (listAllContributors 20 (clientFor [user "alice"; user "bob"])
                          (lit "o") (lit "r") (lit "alice") firstPage []))
                (contributorPool (lit "alice") [user "alice"; user "bob"]))
      as [Hfree [_ Hone]].
    + reflexivity.
    + vm_compute. reflexivity.
    + split; [exact Hfree|].
      destruct (Hone (lit "bob")) as [_ [Hw _]]; [vm_compute; reflexivity|exact Hw].
  - apply (Hhost (sampleHost pr0 [] crowd) 20%nat (lit "alice")).
    vm_compute. lia.
Defined.

(** ** What the pattern removes *)
Section StripFacts.

Lemma stripBracket_firstMatch (s : gostring) :
  stripBracket s = match firstMatch s with Some p => take p s | None => s end.
Proof.
  induction s as [|c s IH]; [reflexivity|]. cbn [stripBracket firstMatch].
  destruct (bracketClass c && negb (hasNewline s)); [reflexivity|].
  rewrite IH. destruct (firstMatch s); reflexivity.
Qed.

Lemma firstMatch_lt (s : gostring) (p : nat) :
  firstMatch s = Some p -> (p < length s)%nat.
Proof.
  revert p. induction s as [|c s IH]; intros p; [discriminate|].
  cbn [firstMatch length].
  destruct (bracketClass c && negb (hasNewline s)).
  - intros [= <-]. lia.
  - destruct (firstMatch s) as [q|]; [|discriminate].
    intros [= <-]. specialize (IH q eq_refl). lia.
Qed.

Lemma starLoop_any (n : nat) :
  forall s : gostring,
    (length s <= n)%nat ->
    starLoop (matchk AnyCharNotNL) (fun s' => matchk EndText s' Some) n s
    = if hasNewline s then None else Some [].
Proof.
  induction n as [|n IH]; intros s Hlen.
  - destruct s; [reflexivity|cbn in Hlen; lia].
  - cbn [starLoop matchk]. destruct s as [|c s]; [reflexivity|].
    cbn [length] in Hlen. cbn [hasNewline existsb].
    rewrite (Z.eqb_sym 10 c). destruct (c =? 10); [reflexivity|].
    cbn [orb length].
    replace (length s <? S (length s))%nat with true
      by (symmetry; apply Nat.ltb_lt; lia).
    rewrite IH by lia. fold (hasNewline s).
    destruct (hasNewline s); reflexivity.
Qed.

(** A match of [re] at the head of a text. *)
Lemma matchk_re (s : gostring) :
  matchk re s Some
  = match s with
    | c :: s' => if bracketClass c && negb (hasNewline s') then Some [] else None
    | [] => None
    end.
Proof.
  unfold re. cbn [matchk]. destruct s as [|c s]; [reflexivity|].
  destruct (bracketClass c); [|reflexivity].
  rewrite starLoop_any by lia. cbn [andb].
  destruct (hasNewline s); reflexivity.
Qed.

Lemma findFrom_re (fuel : nat) :
  forall (src : gostring) (pos : nat),
    (pos <= length src)%nat -> (length src - pos <= fuel)%nat ->
    findFrom fuel re src pos
    = option_map (fun p => ((pos + p)%nat, length src)) (firstMatch (drop pos src)).
Proof.
  induction fuel as [|fuel IH]; intros src pos Hpos Hfuel.
  - assert (Hnil : drop pos src = []) by (apply drop_ge; lia).
    cbn [findFrom]. rewrite matchk_re, Hnil. reflexivity.
  - cbn [findFrom]. rewrite matchk_re.
    destruct (drop pos src) as [|c s'] eqn:Hdrop.
    + assert (Hlen : length (drop pos src) = 0%nat) by now rewrite Hdrop.
      rewrite length_drop in Hlen.
      replace (pos <? length src)%nat with false
        by (symmetry; apply Nat.ltb_ge; lia).
      reflexivity.
    + assert (Hlen : length (drop pos src) = S (length s')) by now rewrite Hdrop.
      rewrite length_drop in Hlen.
      assert (Hnext : drop (S pos) src = s').
      { replace (S pos) with (pos + 1)%nat by lia.
        rewrite <- drop_drop, Hdrop. reflexivity. }
      cbn [firstMatch].
      destruct (bracketClass c && negb (hasNewline s')).
      * cbn [option_map length]. do 2 f_equal; lia.
      * replace (pos <? length src)%nat with true
          by (symmetry; apply Nat.ltb_lt; lia).
        rewrite IH by lia. rewrite Hnext.
        destruct (firstMatch s') as [p|]; cbn [option_map]; [|reflexivity].
        do 2 f_equal. lia.
Qed.

Lemma replaceAll_step (fuel : nat) (rx : regexp) (src repl : gostring)
    (lastMatchEnd searchPos : nat) (buf : gostring) :
  (searchPos <= length src)%nat ->
  replaceAll (S fuel) rx src repl lastMatchEnd searchPos buf
  = match doExecute rx src searchPos with
    | None => buf ++ drop lastMatchEnd src
    | Some (a0, a1) =>
        replaceAll fuel rx src repl a1
          (if (a1 <? searchPos + (if (searchPos <? length src)%nat then 1 else 0))%nat
           then (searchPos + (if (searchPos <? length src)%nat then 1 else 0))%nat
           else if (a1 <? searchPos + 1)%nat then (searchPos + 1)%nat else a1)
          (if (lastMatchEnd <? a1)%nat || (a0 =? 0)%nat
           then (buf ++ take (a0 - lastMatchEnd) (drop lastMatchEnd src)) ++ repl
           else buf ++ take (a0 - lastMatchEnd) (drop lastMatchEnd src))
    end.
Proof.
  intros Hpos. cbn [replaceAll].
  replace (length src <? searchPos)%nat with false
    by (symmetry; apply Nat.ltb_ge; lia).
  destruct (doExecute rx src searchPos) as [[a0 a1]|]; reflexivity.
Qed.

Lemma replaceAll_re_end (fuel : nat) (src : gostring) (lastMatchEnd : nat)
    (buf : gostring) :
  replaceAll fuel re src [] lastMatchEnd (length src) buf
  = buf ++ drop lastMatchEnd src.
Proof.
  destruct fuel as [|fuel]; [reflexivity|].
  rewrite replaceAll_step by lia. unfold doExecute.
  rewrite findFrom_re by lia. rewrite drop_ge by lia. reflexivity.
Qed.

(** Replacing the matches of [re] by the empty string cuts the text at the
    first bracket rune that no line feed follows. *)
Lemma ReplaceAllString_re (s : gostring) :
  ReplaceAllString re s [] = stripBracket s.
Proof.
  unfold ReplaceAllString. rewrite replaceAll_step by lia.
  unfold doExecute. rewrite findFrom_re by lia.
  rewrite stripBracket_firstMatch. change (drop 0 s) with s.
  destruct (firstMatch s) as [p|] eqn:Hfirst; cbn [option_map]; [|reflexivity].
  apply firstMatch_lt in Hfirst.
  replace (0 <? length s)%nat with true by (symmetry; apply Nat.ltb_lt; lia).
  cbn [orb Nat.add app].
  replace (length s <? 1)%nat with false by (symmetry; apply Nat.ltb_ge; lia).
  rewrite Nat.sub_0_r, app_nil_r, replaceAll_re_end.
  rewrite drop_ge by lia. apply app_nil_r.
Qed.

End StripFacts.

Example strip_scope : stripBracket (lit "feat(api)") = lit "feat".
Proof. reflexivity. Qed.

Example strip_line_feed :
  ReplaceAllString re [102; 40; 97; 10; 98; 41] [] = [102; 40; 97; 10; 98; 41].
Proof. reflexivity. Qed.

(** ** Trimming *)
Section TrimFacts.

Lemma TrimLeftSpace_app_keep (a b : gostring) (c : rune) :
  IsSpace c = false -> TrimLeftSpace (a ++ c :: b) = TrimLeftSpace a ++ c :: b.
Proof.
  intros Hc. induction a as [|x a IH]; cbn [TrimLeftSpace app].
  - now rewrite Hc.
  - destruct (IsSpace x); [exact IH|reflexivity].
Qed.

Lemma TrimRightSpace_app_keep (a b : gostring) (c : rune) :
  IsSpace c = false -> TrimRightSpace (a ++ c :: b) = a ++ c :: TrimRightSpace b.
Proof.
  intros Hc. unfold TrimRightSpace.
  rewrite rev_app_distr. cbn [rev]. rewrite <- app_assoc. cbn [app].
  rewrite (TrimLeftSpace_app_keep _ _ _ Hc).
  rewrite rev_app_distr. cbn [rev]. rewrite rev_involutive, <- app_assoc.
  reflexivity.
Qed.

Lemma TrimSpace_endsUntrimmed (s : gostring) :
  endsUntrimmed s -> TrimSpace s = TrimLeftSpace s.
Proof.
  intros Hend. unfold TrimSpace.
  destruct (rev s) as [|c q] eqn:Hrev.
  - apply (f_equal (@rev rune)) in Hrev. rewrite rev_involutive in Hrev.
    subst s. reflexivity.
  - apply (f_equal (@rev rune)) in Hrev. rewrite rev_involutive in Hrev.
    cbn [rev] in Hrev. subst s.
    assert (Hc : IsSpace c = false) by (apply Hend; apply last_snoc).
    rewrite (TrimLeftSpace_app_keep _ [] _ Hc).
    now rewrite (TrimRightSpace_app_keep _ [] _ Hc).
Qed.

Lemma TrimLeftSpace_In (s : gostring) (x : rune) :
  In x (TrimLeftSpace s) -> In x s.
Proof.
  induction s as [|c s IH]; cbn [TrimLeftSpace]; [intros []|].
  destruct (IsSpace c); [|exact (fun H => H)].
  intros Hin. right. now apply IH.
Qed.

Lemma TrimRightSpace_In (s : gostring) (x : rune) :
  In x (TrimRightSpace s) -> In x s.
Proof.
  unfold TrimRightSpace. intros Hin.
  apply List.in_rev in Hin. apply TrimLeftSpace_In in Hin.
  now apply List.in_rev in Hin.
Qed.

(** Trimming commutes with a rune mapping that keeps spaces spaces and
    everything else something else. *)
Lemma TrimLeftSpace_map (f : rune -> rune) (s : gostring) :
  (forall r, IsSpace (f r) = IsSpace r) ->
  List.map f (TrimLeftSpace s) = TrimLeftSpace (List.map f s).
Proof.
  intros Hf. induction s as [|c s IH]; [reflexivity|].
  cbn [TrimLeftSpace List.map]. rewrite Hf.
  destruct (IsSpace c); [exact IH|reflexivity].
Qed.

Lemma TrimSpace_map (f : rune -> rune) (s : gostring) :
  (forall r, IsSpace (f r) = IsSpace r) ->
  List.map f (TrimSpace s) = TrimSpace (List.map f s).
Proof.
  intros Hf. unfold TrimSpace, TrimRightSpace.
  rewrite List.map_rev, (TrimLeftSpace_map f _ Hf), List.map_rev.
  now rewrite (TrimLeftSpace_map f _ Hf).
Qed.

Lemma beforeSep_map (f : rune -> rune) (c : rune) (s : gostring) :
  (forall r, f r = c <-> r = c) ->
  List.map f (beforeSep c s) = beforeSep c (List.map f s).
Proof.
  intros Hf. induction s as [|x s IH]; [reflexivity|].
  cbn [beforeSep List.map].
  destruct (Z.eqb_spec x c) as [->|Hne].
  - rewrite (proj2 (Hf c) eq_refl), Z.eqb_refl. reflexivity.
  - destruct (Z.eqb_spec (f x) c) as [Heq|_].
    + apply (proj1 (Hf x)) in Heq. congruence.
    + cbn [List.map]. now rewrite IH.
Qed.

Lemma beforeSep_app_free (c : rune) (p r : gostring) :
  ~ In c p -> beforeSep c (p ++ r) = p ++ beforeSep c r.
Proof.
  induction p as [|x p IH]; intros Hnin; [reflexivity|].
  cbn [beforeSep app]. destruct (Z.eqb_spec x c) as [->|Hne].
  - exfalso. apply Hnin. now left.
  - f_equal. apply IH. intros Hin. apply Hnin. now right.
Qed.

Lemma hasNewline_false (s : gostring) : ~ In 10 s -> hasNewline s = false.
Proof.
  intros Hnin. unfold hasNewline. apply not_true_is_false. intros H.
  apply List.existsb_exists in H as [x [Hin Heq]].
  apply Z.eqb_eq in Heq. subst x. contradiction.
Qed.

Lemma hasNewline_scope (l x : gostring) :
  hasNewline (l ++ 40 :: x) = hasNewline l || hasNewline x.
Proof. unfold hasNewline. now rewrite List.existsb_app. Qed.

Lemma stripBracket_scope (l x : gostring) :
  hasNewline x = false -> stripBracket (l ++ 40 :: x) = stripBracket l.
Proof.
  intros Hx. induction l as [|c l IH]; cbn [stripBracket app].
  - rewrite Hx. reflexivity.
  - now rewrite IH, hasNewline_scope, Hx, orb_false_r.
Qed.

(** On a text of one line the pattern cuts at the first bracket rune. *)
Lemma stripBracket_single_line (s : gostring) :
  hasNewline s = false -> stripBracket s = stripFromFirstBracket s.
Proof.
  induction s as [|c s IH]; intros Hnl; [reflexivity|].
  unfold hasNewline in Hnl. cbn [existsb] in Hnl.
  apply orb_false_elim in Hnl as [_ Hnl]. fold (hasNewline s) in Hnl.
  cbn [stripBracket stripFromFirstBracket]. rewrite Hnl, (IH Hnl).
  cbn [negb]. now rewrite andb_true_r.
Qed.

End TrimFacts.

(** ** The cleaned prefix *)
Section CleanedPrefix.

Variable caseLower : rune -> rune.

Lemma handleTitleBasedLabel_colon (client : Client) (owner repo : gostring)
    (prNumber : Z) (pr : PullRequest) :
  In 58 (Title pr) ->
  handleTitleBasedLabel caseLower client owner repo prNumber pr
  = applyLabel client owner repo prNumber (Labels pr)
      (cleanPrefix caseLower (Title pr)).
Proof.
  intros Hin. unfold handleTitleBasedLabel.
  assert (Hc : Contains (ToLower caseLower (Title pr)) (lit ":") = true).
  { apply (Contains_single _ 58). apply ToLower_In_fixed; [lia|lia|assumption]. }
  rewrite Hc. cbn [negb]. cbv zeta. rewrite bind_ret_l. reflexivity.
Qed.

Lemma IsSpace_printable (r : rune) : 33 <= r <= 127 -> IsSpace r = false.
Proof.
  intros Hr. unfold IsSpace.
  repeat (apply orb_false_intro);
    try (apply Z.eqb_neq; lia);
    apply andb_false_iff;
    first [left; apply Z.leb_gt; lia | right; apply Z.leb_gt; lia].
Qed.

Lemma unicode_ToLower_space (r : rune) :
  lowerKeepsSpace caseLower -> IsSpace (unicode_ToLower caseLower r) = IsSpace r.
Proof.
  intros Hsp. unfold unicode_ToLower.
  destruct (Z.leb_spec r 127) as [Hle|Hgt]; [|now apply Hsp].
  destruct (Z.leb_spec 65 r), (Z.leb_spec r 90); cbn [andb]; try reflexivity.
  rewrite !IsSpace_printable by lia. reflexivity.
Qed.

Lemma unicode_ToLower_colon (r : rune) :
  lowerIsLetter caseLower -> unicode_ToLower caseLower r = 58 <-> r = 58.
Proof.
  intros Hlow. split.
  - apply (unicode_ToLower_target caseLower 58 Hlow); lia.
  - intros ->. reflexivity.
Qed.

(** The cleaned prefix in terms of the three steps. *)
Lemma cleanPrefix_steps (title : gostring) :
  cleanPrefix caseLower title
  = stripBracket (ToLower caseLower (TrimSpace (beforeSep 58 title))).
Proof.
  unfold cleanPrefix. cbv zeta. rewrite ReplaceAllString_re.
  change (lit ":") with [58]. now rewrite SplitN_first.
Qed.

(** The cleaned prefix is a function of the lower-cased title. *)
Lemma cleanPrefix_of_lower (title : gostring) :
  lowerIsLetter caseLower -> lowerKeepsSpace caseLower ->
  cleanPrefix caseLower title
  = stripBracket (TrimSpace (beforeSep 58 (ToLower caseLower title))).
Proof.
  intros Hlow Hsp. rewrite cleanPrefix_steps. unfold ToLower.
  rewrite TrimSpace_map by (intros r; now apply unicode_ToLower_space).
  rewrite beforeSep_map by (intros r; now apply unicode_ToLower_colon).
  reflexivity.
Qed.

(** The scope in brackets leaves the cleaned prefix as it is. *)
Lemma cleanPrefix_scope (prefix anything rest : gostring) :
  lowerIsLetter caseLower ->
  endsUntrimmed prefix -> ~ In 10 anything ->
  cleanPrefix caseLower (prefix ++ lit "(" ++ anything ++ lit "):" ++ rest)
  = cleanPrefix caseLower (prefix ++ lit ":" ++ rest).
Proof.
  intros Hlow Hend Hnl. rewrite !cleanPrefix_steps.
  change (lit "(") with [40]. change (lit "):") with [41; 58].
  change (lit ":") with [58]. cbn [app].
  destruct (in_dec Z.eq_dec 58 prefix) as [Hin|Hnin].
  - now rewrite !(beforeSep_app_In 58 prefix _ Hin).
  - rewrite (beforeSep_app_notin 58 prefix rest Hnin).
    rewrite (beforeSep_app_free 58 prefix _ Hnin). cbn [beforeSep].
    change (40 =? 58) with false. cbv iota.
    rewrite (TrimSpace_endsUntrimmed prefix Hend). unfold TrimSpace.
    rewrite TrimLeftSpace_app_keep by reflexivity.
    rewrite TrimRightSpace_app_keep by reflexivity.
    rewrite ToLower_app. cbn [ToLower List.map].
    change (unicode_ToLower caseLower 40) with 40.
    apply stripBracket_scope. apply hasNewline_false.
    apply ToLower_notin; [assumption|lia|lia|].
    intros Hin. apply TrimRightSpace_In in Hin.
    destruct (in_dec Z.eq_dec 58 anything) as [Hc|Hc].
    + rewrite (beforeSep_app_In 58 anything _ Hc) in Hin.
      apply beforeSep_incl in Hin. contradiction.
    + rewrite (beforeSep_app_free 58 anything _ Hc) in Hin.
      cbn [beforeSep] in Hin. change (41 =? 58) with false in Hin.
      rewrite Z.eqb_refl in Hin.
      apply List.in_app_or in Hin as [Hin|[Hin|[]]]; [contradiction|discriminate].
Qed.

(** C6, as the code has it.  For a title whose text before the first colon
    is one line, the cleaned prefix is that text trimmed, lower-cased and
    cut at its first bracket rune.  When the prefix does not end in white
    space and the scope holds no line feed, "<prefix>(<scope>): rest" is
    handled exactly as "<prefix>: rest".  Titles that agree up to case are
    handled alike: same cleaned prefix, same calls, same end. *)
Theorem cleaned_prefix_ignores_scope_and_case :
  lowerIsLetter caseLower ->
  (forall title,
      ~ In 10 (beforeSep 58 title) ->
      cleanPrefix caseLower title
      = stripFromFirstBracket (ToLower caseLower (TrimSpace (beforeSep 58 title))))
  /\ (forall prefix anything rest client owner repo prNumber pr,
         endsUntrimmed prefix -> ~ In 10 anything ->
         handleTitleBasedLabel caseLower client owner repo prNumber
           (withTitle pr (prefix ++ lit "(" ++ anything ++ lit "):" ++ rest))
         = handleTitleBasedLabel caseLower client owner repo prNumber
             (withTitle pr (prefix ++ lit ":" ++ rest)))
  /\ (lowerKeepsSpace caseLower ->
      forall title1 title2 client owner repo prNumber pr,
        ToLower caseLower title1 = ToLower caseLower title2 ->
        cleanPrefix caseLower title1 = cleanPrefix caseLower title2
        /\ calls (trace (handleTitleBasedLabel caseLower client owner repo prNumber
                           (withTitle pr title1)))
           = calls (trace (handleTitleBasedLabel caseLower client owner repo prNumber
                             (withTitle pr title2)))
        /\ result (handleTitleBasedLabel caseLower client owner repo prNumber
                     (withTitle pr title1))
           = result (handleTitleBasedLabel caseLower client owner repo prNumber
                       (withTitle pr title2))).
Proof.
  intros Hlow. split; [|split].
  - intros title Hline. rewrite cleanPrefix_steps.
    apply stripBracket_single_line, hasNewline_false.
    apply ToLower_notin; [assumption|lia|lia|].
    intros Hin. apply Hline. unfold TrimSpace in Hin.
    now apply TrimRightSpace_In, TrimLeftSpace_In in Hin.
  - intros prefix anything rest client owner repo prNumber pr Hend Hnl.
    rewrite !handleTitleBasedLabel_colon.
    + cbn [withTitle Title Labels]. now rewrite cleanPrefix_scope.
    + cbn [withTitle Title]. apply List.in_or_app. right. now left.
    + cbn [withTitle Title]. rewrite !app_assoc.
      apply List.in_or_app. left. apply List.in_or_app. right.
      right. now left.
  - intros Hsp title1 title2 client owner repo prNumber pr Heq.
    assert (Hclean : cleanPrefix caseLower title1 = cleanPrefix caseLower title2).
    { now rewrite !cleanPrefix_of_lower, Heq. }
    split; [exact Hclean|].
    destruct (in_dec Z.eq_dec 58 title1) as [Hin|Hnin].
    + assert (Hin2 : In 58 title2).
      { apply (ToLower_In_fixed caseLower) in Hin; [|lia|lia].
        rewrite Heq in Hin. apply List.in_map_iff in Hin as [r [Hr Hin]].
        apply (proj1 (unicode_ToLower_colon r Hlow)) in Hr. now subst r. }
      rewrite !handleTitleBasedLabel_colon by assumption.
      cbn [withTitle Title Labels]. rewrite Hclean. split; reflexivity.
    + assert (Hnin2 : ~ In 58 title2).
      { intros Hin. apply (ToLower_In_fixed caseLower) in Hin; [|lia|lia].
        rewrite <- Heq in Hin. revert Hin.
        apply ToLower_notin; [assumption|lia|lia|assumption]. }
      rewrite !handleTitleBasedLabel_no_colon
        by (apply lowered_title_no_colon; assumption).
      split; reflexivity.
Qed.

End CleanedPrefix.

Lemma sampleLower_space : lowerKeepsSpace sampleLower.
Proof.
  intros r Hr. unfold sampleLower.
  destruct (Z.eqb_spec r 304) as [->|_]; [reflexivity|].
  destruct (Z.eqb_spec r 8490) as [->|_]; reflexivity.
Qed.

(** C6, counterexamples.  A space before the bracket survives the trimming
    and stays in front of the cut, so "feat (api): x" is rejected while
    "feat : x" is labelled; and a line feed inside the brackets keeps the
    pattern from matching, so the scoped title is rejected while
    "feat: x" is labelled. *)
Lemma scope_not_always_ignored :
  (lit "feat (api): x" = lit "feat " ++ lit "(" ++ lit "api" ++ lit "):" ++ lit " x"
   /\ lit "feat : x" = lit "feat " ++ lit ":" ++ lit " x"
   /\ titleRun "feat (api): x"
      = ([Log "No matching label for prefix: %s" [VString (lit "feat ")]], Exit 1)
   /\ writes (trace (titleRun "feat : x"))
      = [Issues_AddLabelsToIssue (lit "o") (lit "r") 7 [lit "enhancement"]])
  /\ (handleTitleBasedLabel sampleLower
        (clientOf (sampleHost (samplePR "") [] [])) (lit "o") (lit "r") 7
        (withTitle (samplePR "")
           (lit "feat" ++ lit "(" ++ [97; 10; 98] ++ lit "):" ++ lit " x"))
      = ([Log "No matching label for prefix: %s"
            [VString (lit "feat(" ++ [97; 10; 98] ++ lit ")")]], Exit 1)
      /\ writes (trace (titleRun "feat: x"))
         = [Issues_AddLabelsToIssue (lit "o") (lit "r") 7 [lit "enhancement"]]).
Proof. vm_compute. repeat split; reflexivity. Qed.

Lemma cleaned_prefix_ignores_scope_and_case_witness :
  cleanPrefix sampleLower (lit " Fix[ui] : crash") = lit "fix"
  /\ handleTitleBasedLabel sampleLower
       (clientOf (sampleHost (samplePR "") [] [])) (lit "o") (lit "r") 7
       (withTitle (samplePR "") (lit "feat" ++ lit "(" ++ lit "api" ++ lit "):" ++ lit " x"))
     = handleTitleBasedLabel sampleLower
         (clientOf (sampleHost (samplePR "") [] [])) (lit "o") (lit "r") 7
         (withTitle (samplePR "") (lit "feat" ++ lit ":" ++ lit " x"))
  /\ cleanPrefix sampleLower (lit "FEAT: x") = cleanPrefix sampleLower (lit "feat: x").
Proof.
  destruct (cleaned_prefix_ignores_scope_and_case sampleLower sampleLower_letter)
    as [Hsteps [Hscope Hcase]].
  split; [|split].
  - rewrite (Hsteps (lit " Fix[ui] : crash")); [reflexivity|].
    vm_compute. intuition discriminate.
  - apply (Hscope (lit "feat") (lit "api") (lit " x")).
    + intros c Hc. vm_compute in Hc. injection Hc as <-. reflexivity.
    + vm_compute. intuition discriminate.
  - apply (Hcase sampleLower_space (lit "FEAT: x") (lit "feat: x")
             (clientOf (sampleHost (samplePR "") [] [])) (lit "o") (lit "r") 7
             (samplePR "")).
    reflexivity.
Defined.

(** * Further properties of the rules *)

(** ** The default assignee rule *)
Section AssigneeRule.

Variables (client : Client) (owner repo : gostring) (prNumber : Z).

(** X1.  A pull request that has an assignee, whoever it is, is left alone:
    the rule logs and makes no API call. *)
Theorem assignee_present_no_call (pr : PullRequest) :
  Assignees pr <> [] ->
  assignDefaultAssignee client owner repo prNumber pr
  = ([Log "PR already has assignees" []], Done tt).
Proof.
  intros Hne. unfold assignDefaultAssignee.
  destruct (Assignees pr) as [|a rest]; [congruence|]. reflexivity.
Qed.

(** X2.  A pull request without assignee gets exactly one call, which names
    the author and nobody else; whether or not the call succeeds the rule
    returns and the run goes on. *)
Theorem assignee_absent_assigns_author (pr : PullRequest) :
  Assignees pr = [] ->
  calls (trace (assignDefaultAssignee client owner repo prNumber pr))
  = [Issues_AddAssignees owner repo prNumber [User pr]]
  /\ result (assignDefaultAssignee client owner repo prNumber pr) = Done tt.
Proof.
  intros Hnone. unfold assignDefaultAssignee. rewrite Hnone.
  cbn [length Nat.eqb negb]. cbv zeta. rewrite bind_call.
  destruct (AddAssignees client owner repo prNumber [User pr]);
    split; reflexivity.
Qed.

Lemma assignDefaultAssignee_returns (pr : PullRequest) :
  result (assignDefaultAssignee client owner repo prNumber pr) = Done tt.
Proof.
  unfold assignDefaultAssignee.
  destruct (Assignees pr) as [|a rest]; cbn [length Nat.eqb negb].
  - cbv zeta. rewrite bind_call.
    destruct (AddAssignees client owner repo prNumber [User pr]); reflexivity.
  - reflexivity.
Qed.

End AssigneeRule.

Lemma assignee_present_no_call_witness :
  assignDefaultAssignee (clientOf (sampleHost assignedPR [] []))
    (lit "o") (lit "r") 7 assignedPR
  = ([Log "PR already has assignees" []], Done tt).
Proof.
  apply (assignee_present_no_call (clientOf (sampleHost assignedPR [] []))
           (lit "o") (lit "r") 7 assignedPR).
  discriminate.
Defined.

Lemma assignee_absent_assigns_author_witness :
  calls (trace (assignDefaultAssignee
                  (clientOf (refusingHost (samplePR "fix: y") [] []))
                  (lit "o") (lit "r") 7 (samplePR "fix: y")))
  = [Issues_AddAssignees (lit "o") (lit "r") 7 [lit "alice"]]
  /\ result (assignDefaultAssignee
               (clientOf (refusingHost (samplePR "fix: y") [] []))
               (lit "o") (lit "r") 7 (samplePR "fix: y")) = Done tt.
Proof.
  apply (assignee_absent_assigns_author
           (clientOf (refusingHost (samplePR "fix: y") [] []))
           (lit "o") (lit "r") 7 (samplePR "fix: y")).
  reflexivity.
Defined.

(** ** The title rule beyond the fatal cases *)
Section TitleRule.

Variable caseLower : rune -> rune.
Variables (client : Client) (owner repo : gostring) (prNumber : Z).

Lemma labelMap_table : labelMap = list_to_map labelTable.
Proof. reflexivity. Qed.

Lemma labelMap_lookup_table (prefix label : gostring) :
  labelMap !! prefix = Some label -> In (prefix, label) labelTable.
Proof.
  rewrite labelMap_table. intros H.
  apply elem_of_list_to_map_2 in H. now apply list_elem_of_In.
Qed.

Lemma labelTable_lookup (prefix label : gostring) :
  In (prefix, label) labelTable -> labelMap !! prefix = Some label.
Proof.
  intros Hin. rewrite labelMap_table.
  apply elem_of_list_to_map_1; [|now apply list_elem_of_In].
  apply (bool_decide_unpack (NoDup (labelTable.*1))). vm_compute. exact I.
Qed.

Lemma existsb_eqb_In (label : gostring) (labels : list gostring) :
  existsb (fun l => GoString.eqb l label) labels = true <-> In label labels.
Proof.
  rewrite List.existsb_exists. unfold GoString.eqb. split.
  - intros [l [Hin Heq]]. apply bool_decide_eq_true_1 in Heq. now subst l.
  - intros Hin. exists label. split; [assumption|].
    now apply bool_decide_eq_true_2.
Qed.

Lemma handleTitleBasedLabel_contains (pr : PullRequest) :
  Contains (ToLower caseLower (Title pr)) (lit ":") = true ->
  handleTitleBasedLabel caseLower client owner repo prNumber pr
  = applyLabel client owner repo prNumber (Labels pr)
      (cleanPrefix caseLower (Title pr)).
Proof.
  intros Hc. unfold handleTitleBasedLabel. rewrite Hc.
  cbn [negb]. cbv zeta. rewrite bind_ret_l. reflexivity.
Qed.

Lemma applyLabel_unknown (labels : list gostring) (prefix : gostring) :
  labelMap !! prefix = None ->
  applyLabel client owner repo prNumber labels prefix
  = ([Log "No matching label for prefix: %s" [VString prefix]], Exit 1).
Proof. intros Hnone. unfold applyLabel. rewrite Hnone. reflexivity. Qed.

Lemma applyLabel_present (labels : list gostring) (prefix label : gostring) :
  labelMap !! prefix = Some label -> In label labels ->
  applyLabel client owner repo prNumber labels prefix
  = ([Log "PR already has label: %s" [VString label]], Done tt).
Proof.
  intros Hsome Hin. unfold applyLabel. rewrite Hsome, bind_ret_l.
  now rewrite (proj2 (existsb_eqb_In label labels) Hin).
Qed.

Lemma applyLabel_absent (labels : list gostring) (prefix label : gostring) :
  labelMap !! prefix = Some label -> ~ In label labels ->
  calls (trace (applyLabel client owner repo prNumber labels prefix))
  = [Issues_AddLabelsToIssue owner repo prNumber [label]]
  /\ result (applyLabel client owner repo prNumber labels prefix) = Done tt.
Proof.
  intros Hsome Hnin. unfold applyLabel. rewrite Hsome, bind_ret_l.
  destruct (existsb (fun l => GoString.eqb l label) labels) eqn:Hex.
  - apply existsb_eqb_In in Hex. contradiction.
  - rewrite bind_call.
    destruct (AddLabelsToIssue client owner repo prNumber [label]);
      split; reflexivity.
Qed.

(** X3.  When the pull request already carries the label its title resolves
    to, the rule logs and makes no API call. *)
Theorem title_label_present_no_call (pr : PullRequest) (label : gostring) :
  In 58 (Title pr) ->
  labelMap !! cleanPrefix caseLower (Title pr) = Some label ->
  In label (Labels pr) ->
  handleTitleBasedLabel caseLower client owner repo prNumber pr
  = ([Log "PR already has label: %s" [VString label]], Done tt).
Proof.
  intros Hcolon Hsome Hin. rewrite handleTitleBasedLabel_colon by assumption.
  now apply applyLabel_present.
Qed.

(** X4.  When the title resolves to a label the pull request does not
    carry, the rule makes exactly one call, which adds that one label; it
    returns whether or not the call succeeds. *)
Theorem title_label_added_once (pr : PullRequest) (label : gostring) :
  In 58 (Title pr) ->
  labelMap !! cleanPrefix caseLower (Title pr) = Some label ->
  ~ In label (Labels pr) ->
  calls (trace (handleTitleBasedLabel caseLower client owner repo prNumber pr))
  = [Issues_AddLabelsToIssue owner repo prNumber [label]]
  /\ result (handleTitleBasedLabel caseLower client owner repo prNumber pr)
     = Done tt.
Proof.
  intros Hcolon Hsome Hnin. rewrite handleTitleBasedLabel_colon by assumption.
  now apply applyLabel_absent.
Qed.

(** X5.  A title with a colon whose cleaned prefix is no key of the label
    map ends the process with status 1 and the prefix in the diagnostic,
    before any API call. *)
Theorem unknown_prefix_is_fatal (pr : PullRequest) :
  In 58 (Title pr) ->
  labelMap !! cleanPrefix caseLower (Title pr) = None ->
  handleTitleBasedLabel caseLower client owner repo prNumber pr
  = ([Log "No matching label for prefix: %s"
        [VString (cleanPrefix caseLower (Title pr))]], Exit 1).
Proof.
  intros Hcolon Hnone. rewrite handleTitleBasedLabel_colon by assumption.
  now apply applyLabel_unknown.
Qed.

(** X6.  Whatever the title and whatever the service answers, the rule
    makes at most one call, and that call adds a single label taken from
    the label map. *)
Theorem title_rule_writes_only_mapped_labels (pr : PullRequest) :
  calls (trace (handleTitleBasedLabel caseLower client owner repo prNumber pr)) = []
  \/ exists prefix label,
       In (prefix, label) labelTable
       /\ calls (trace (handleTitleBasedLabel caseLower client owner repo prNumber pr))
          = [Issues_AddLabelsToIssue owner repo prNumber [label]].
Proof.
  destruct (Contains (ToLower caseLower (Title pr)) (lit ":")) eqn:Hc.
  - rewrite handleTitleBasedLabel_contains by assumption.
    destruct (labelMap !! cleanPrefix caseLower (Title pr)) as [label|] eqn:Hmap.
    + destruct (in_dec (List.list_eq_dec Z.eq_dec) label (Labels pr)) as [Hin|Hnin].
      * left. now rewrite (applyLabel_present _ _ _ Hmap Hin).
      * right. exists (cleanPrefix caseLower (Title pr)), label. split.
        -- now apply labelMap_lookup_table.
        -- now apply applyLabel_absent.
    + left. now rewrite applyLabel_unknown.
  - left. now rewrite handleTitleBasedLabel_no_colon.
Qed.

(** X7.  Each prefix of the label map, written in lower case and followed
    directly by the colon, resolves to its label: on a pull request that
    does not carry the label yet, the rule adds exactly that label. *)
Theorem conventional_prefix_resolves
    (pr : PullRequest) (prefix label rest : gostring) :
  In (prefix, label) labelTable ->
  Title pr = prefix ++ lit ":" ++ rest ->
  ~ In label (Labels pr) ->
  cleanPrefix caseLower (Title pr) = prefix
  /\ calls (trace (handleTitleBasedLabel caseLower client owner repo prNumber pr))
     = [Issues_AddLabelsToIssue owner repo prNumber [label]]
  /\ result (handleTitleBasedLabel caseLower client owner repo prNumber pr)
     = Done tt.
Proof.
  intros Hin Htitle Hnin.
  assert (Hclean : cleanPrefix caseLower (Title pr) = prefix).
  { rewrite Htitle, cleanPrefix_steps. change (lit ":") with [58]. cbn [app].
    unfold labelTable in Hin. cbn [In] in Hin.
    repeat (destruct Hin as [Hin|Hin];
            [injection Hin as <- <-;
             rewrite beforeSep_app_notin by (vm_compute; intuition discriminate);
             vm_compute; reflexivity|]).
    destruct Hin. }
  split; [exact Hclean|].
  rewrite handleTitleBasedLabel_colon
    by (rewrite Htitle; apply List.in_or_app; right; now left).
  rewrite Hclean. apply applyLabel_absent; [now apply labelTable_lookup|assumption].
Qed.

End TitleRule.

Lemma title_label_present_no_call_witness :
  handleTitleBasedLabel sampleLower (clientOf (sampleHost assignedPR [] []))
    (lit "o") (lit "r") 7 assignedPR
  = ([Log "PR already has label: %s" [VString (lit "documentation")]], Done tt).
Proof.
  apply (title_label_present_no_call sampleLower
           (clientOf (sampleHost assignedPR [] [])) (lit "o") (lit "r") 7
           assignedPR (lit "documentation")).
  - vm_compute. intuition.
  - vm_compute. reflexivity.
  - left. reflexivity.
Defined.

Lemma title_label_added_once_witness :
  calls (trace (handleTitleBasedLabel sampleLower
                  (clientOf (refusingHost (samplePR "Feat(api): add") [] []))
                  (lit "o") (lit "r") 7 (samplePR "Feat(api): add")))
  = [Issues_AddLabelsToIssue (lit "o") (lit "r") 7 [lit "enhancement"]]
  /\ result (handleTitleBasedLabel sampleLower
               (clientOf (refusingHost (samplePR "Feat(api): add") [] []))
               (lit "o") (lit "r") 7 (samplePR "Feat(api): add")) = Done tt.
Proof.
  apply (title_label_added_once sampleLower
           (clientOf (refusingHost (samplePR "Feat(api): add") [] []))
           (lit "o") (lit "r") 7 (samplePR "Feat(api): add") (lit "enhancement")).
  - vm_compute. intuition.
  - vm_compute. reflexivity.
  - intros [].
Defined.

Lemma unknown_prefix_is_fatal_witness :
  handleTitleBasedLabel sampleLower
    (clientOf (sampleHost (samplePR "wip: stuff") [] []))
    (lit "o") (lit "r") 7 (samplePR "wip: stuff")
  = ([Log "No matching label for prefix: %s" [VString (lit "wip")]], Exit 1).
Proof.
  apply (unknown_prefix_is_fatal sampleLower
           (clientOf (sampleHost (samplePR "wip: stuff") [] []))
           (lit "o") (lit "r") 7 (samplePR "wip: stuff")).
  - vm_compute. intuition.
  - vm_compute. reflexivity.
Defined.

Lemma conventional_prefix_resolves_witness :
  cleanPrefix sampleLower (lit "perf: faster") = lit "perf"
  /\ calls (trace (handleTitleBasedLabel sampleLower
                     (clientOf (sampleHost (samplePR "perf: faster") [] []))
                     (lit "o") (lit "r") 7 (samplePR "perf: faster")))
     = [Issues_AddLabelsToIssue (lit "o") (lit "r") 7 [lit "performance"]]
  /\ result (handleTitleBasedLabel sampleLower
               (clientOf (sampleHost (samplePR "perf: faster") [] []))
               (lit "o") (lit "r") 7 (samplePR "perf: faster")) = Done tt.
Proof.
  apply (conventional_prefix_resolves sampleLower
           (clientOf (sampleHost (samplePR "perf: faster") [] []))
           (lit "o") (lit "r") 7 (samplePR "perf: faster")
           (lit "perf") (lit "performance") (lit " faster")).
  - vm_compute. intuition.
  - reflexivity.
  - intros [].
Defined.

(** ** The size rule beyond the thresholds *)
Section SizeRule.

Variables (client : Client) (owner repo : gostring) (prNumber : Z).

Lemma wrap_add_l (x y : Z) : Int.wrap (Int.wrap x + y) = Int.wrap (x + y).
Proof.
  unfold Int.wrap. f_equal.
  replace ((x + 2 ^ 63) mod 2 ^ 64 - 2 ^ 63 + y + 2 ^ 63)
    with ((x + 2 ^ 63) mod 2 ^ 64 + y) by lia.
  rewrite Zplus_mod_idemp_l. f_equal. lia.
Qed.

Lemma wrap_add_r (x y : Z) : Int.wrap (x + Int.wrap y) = Int.wrap (x + y).
Proof. rewrite (Z.add_comm x), wrap_add_l. f_equal. lia. Qed.

Lemma add_wrapped (x a d : Z) :
  Int.add (Int.wrap x) (Int.add a d) = Int.wrap (x + (a + d)).
Proof. unfold Int.add. now rewrite wrap_add_l, wrap_add_r. Qed.

Lemma fold_changes (files : list CommitFile) :
  forall acc : Z,
    fold_left
      (fun totalChanges file =>
         Int.add totalChanges (Int.add (Additions file) (Deletions file)))
      files (Int.wrap acc)
    = Int.wrap (acc + sumChanges files).
Proof.
  induction files as [|file files IH]; intros acc; cbn [fold_left sumChanges fold_right].
  - f_equal. lia.
  - rewrite add_wrapped, IH. fold (sumChanges files). f_equal. lia.
Qed.

Lemma sumChanges_Permutation (files files' : list CommitFile) :
  files ≡ₚ files' -> sumChanges files = sumChanges files'.
Proof.
  induction 1 as [|file l l' _ IH|f g l|l l' l'' _ IH1 _ IH2].
  - reflexivity.
  - change (Additions file + Deletions file + sumChanges l
            = Additions file + Deletions file + sumChanges l'). lia.
  - change (Additions g + Deletions g + (Additions f + Deletions f + sumChanges l)
            = Additions f + Deletions f + (Additions g + Deletions g + sumChanges l)).
    lia.
  - lia.
Qed.

(** X8.  The total the rule classifies is the sum of additions and
    deletions over the files it received, reduced to the range of [int]:
    equal to the sum whenever the sum fits, and the same in whatever order
    the files arrive. *)
Theorem total_changes_is_wrapped_sum (files : list CommitFile) :
  totalChangesOf files = Int.wrap (sumChanges files)
  /\ (Int.inRange (sumChanges files) -> totalChangesOf files = sumChanges files)
  /\ (forall files', files ≡ₚ files' -> totalChangesOf files = totalChangesOf files').
Proof.
  assert (Hsum : forall fs, totalChangesOf fs = Int.wrap (sumChanges fs)).
  { intros fs. unfold totalChangesOf. change 0 with (Int.wrap 0) at 1.
    now rewrite fold_changes. }
  split; [apply Hsum|]. split.
  - intros Hr. rewrite Hsum. now apply wrap_inRange.
  - intros files' Hperm. now rewrite !Hsum, (sumChanges_Permutation _ _ Hperm).
Qed.

(** X9.  When the file list cannot be fetched the rule logs the error,
    writes nothing and returns: the failure does not end the run. *)
Theorem day_label_fetch_failure (pr : PullRequest) (err : error) :
  ListFiles client owner repo prNumber None = inl err ->
  handleDayLabel client owner repo prNumber pr
  = ([Api (PullRequests_ListFiles owner repo prNumber None);
      Log "Failed to list changed files: %v" [VError err]], Done tt).
Proof.
  intros Hfail. unfold handleDayLabel. rewrite bind_call, Hfail. reflexivity.
Qed.

Lemma dayLabelOf_cases (totalChanges : Z) : In (dayLabelOf totalChanges) dayLabels.
Proof.
  unfold dayLabelOf, dayLabels.
  destruct (totalChanges <? 200); [now left|].
  destruct (totalChanges <? 500); [right; now left|right; right; now left].
Qed.

Lemma dayLabelOf_prefix (totalChanges : Z) :
  HasPrefix (dayLabelOf totalChanges) (lit "D-") = true.
Proof.
  unfold dayLabelOf.
  destruct (totalChanges <? 200); [reflexivity|].
  destruct (totalChanges <? 500); reflexivity.
Qed.

Lemma handleDayLabel_guarded (pr : PullRequest) :
  hasDayLabel pr ->
  writes (trace (handleDayLabel client owner repo prNumber pr)) = [].
Proof.
  intros [lab [Hin Hpre]]. unfold handleDayLabel. rewrite bind_call.
  destruct (ListFiles client owner repo prNumber None) as [err|[files resp]];
    [reflexivity|].
  destruct (List.find _ (Labels pr)) as [lab'|] eqn:Hfind; [reflexivity|].
  exfalso. pose proof (List.find_none _ _ Hfind lab Hin) as Hno.
  cbn beta in Hno. rewrite Hpre in Hno. discriminate.
Qed.

Lemma handleDayLabel_returns (pr : PullRequest) :
  result (handleDayLabel client owner repo prNumber pr) = Done tt.
Proof.
  unfold handleDayLabel. rewrite bind_call.
  destruct (ListFiles client owner repo prNumber None) as [err|[files resp]];
    [reflexivity|].
  cbv zeta. destruct (List.find _ (Labels pr)) as [lab|]; [reflexivity|].
  rewrite bind_call.
  destruct (AddLabelsToIssue client owner repo prNumber _); reflexivity.
Qed.

(** X10.  The rule never ends the process, and it writes at most once: the
    one write, if any, adds a single label, and that label is "D-3", "D-5"
    or "D-7". *)
Theorem day_rule_returns_and_writes_day_labels (pr : PullRequest) :
  result (handleDayLabel client owner repo prNumber pr) = Done tt
  /\ (writes (trace (handleDayLabel client owner repo prNumber pr)) = []
      \/ exists label,
           In label dayLabels
           /\ writes (trace (handleDayLabel client owner repo prNumber pr))
              = [Issues_AddLabelsToIssue owner repo prNumber [label]]).
Proof.
  unfold handleDayLabel. rewrite bind_call.
  destruct (ListFiles client owner repo prNumber None) as [err|[files resp]].
  - split; [reflexivity|now left].
  - cbv zeta.
    destruct (List.find _ (Labels pr)) as [lab|]; [split; [reflexivity|now left]|].
    rewrite bind_call.
    destruct (AddLabelsToIssue client owner repo prNumber _);
      (split; [reflexivity|]); right;
      exists (dayLabelOf (totalChangesOf files));
      (split; [apply dayLabelOf_cases|reflexivity]).
Qed.

(** X11.  The rule's own label stops the rule: on any pull request that
    carries a label the rule could have chosen, whatever the size of the
    change by now, nothing is written. *)
Theorem day_label_is_one_shot (pr : PullRequest) (totalChanges : Z) :
  In (dayLabelOf totalChanges) (Labels pr) ->
  writes (trace (handleDayLabel client owner repo prNumber pr)) = [].
Proof.
  intros Hin. apply handleDayLabel_guarded.
  exists (dayLabelOf totalChanges). split; [assumption|apply dayLabelOf_prefix].
Qed.

End SizeRule.

Lemma total_changes_is_wrapped_sum_witness :
  totalChangesOf [file 120 80; file 5 5] = 210
  /\ totalChangesOf [file 120 80; file 5 5] = totalChangesOf [file 5 5; file 120 80].
Proof.
  destruct (total_changes_is_wrapped_sum [file 120 80; file 5 5])
    as [_ [Hfits Horder]].
  split.
  - apply Hfits. unfold Int.inRange, sumChanges. cbn. lia.
  - apply (Horder [file 5 5; file 120 80]). apply perm_swap.
Defined.

Lemma day_label_fetch_failure_witness :
  handleDayLabel (clientOf (filelessHost (samplePR "fix: y")))
    (lit "o") (lit "r") 7 (samplePR "fix: y")
  = ([Api (PullRequests_ListFiles (lit "o") (lit "r") 7 None);
      Log "Failed to list changed files: %v" [VError (ApiError "500")]], Done tt).
Proof.
  apply (day_label_fetch_failure (clientOf (filelessHost (samplePR "fix: y")))
           (lit "o") (lit "r") 7 (samplePR "fix: y") (ApiError "500")).
  reflexivity.
Defined.

Lemma day_label_is_one_shot_witness :
  writes (trace (handleDayLabel
                   (clientOf (sampleHost labelledPR [file 4000 1000] []))
                   (lit "o") (lit "r") 7 labelledPR)) = [].
Proof.
  apply (day_label_is_one_shot
           (clientOf (sampleHost labelledPR [file 4000 1000] []))
           (lit "o") (lit "r") 7 labelledPR 300).
  right. left. reflexivity.
Defined.

(** ** The run as a whole *)
Section WholeRun.

Variable caseLower : rune -> rune.
Variable getenv : string -> gostring.
Variable newGitHubClient : gostring -> Client.
Variables (fuel : nat) (src : Rand.Source).

Lemma bind_done {A B} (m : M A) (a : A) (f : A -> M B) :
  result m = Done a ->
  (m ≫= f) = (trace m ++ trace (f a), result (f a)).
Proof.
  destruct m as [t r]. cbn [result snd trace fst]. intros ->.
  unfold mbind, M_bind, Effects.bind. destruct (f a). reflexivity.
Qed.

Lemma listAllContributors_no_exit (client : Client) (owner repo author : gostring)
    (n : nat) :
  forall opts contributors code,
    result (listAllContributors n client owner repo author opts contributors)
    <> Exit code.
Proof.
  induction n as [|n IH]; intros opts acc code; [discriminate|].
  rewrite listAllContributors_step.
  destruct (ListContributors client owner repo opts) as [err|[contributor resp]];
    [discriminate|].
  destruct (NextPage resp =? 0); [discriminate|]. cbv zeta. apply IH.
Qed.

Lemma requestReviewers_returns (client : Client) (owner repo : gostring)
    (prNumber : Z) (pr : PullRequest) (pool : list gostring) :
  result (requestReviewers src client owner repo prNumber pr pool) = Done tt.
Proof.
  unfold requestReviewers.
  destruct ((length pool =? 0)%nat || _); [reflexivity|].
  cbv zeta. rewrite bind_call.
  destruct (RequestReviewers client owner repo prNumber _); reflexivity.
Qed.

Lemma assignDefaultReviewers_no_exit (client : Client) (owner repo : gostring)
    (prNumber : Z) (pr : PullRequest) (code : Z) :
  result (assignDefaultReviewers fuel src client owner repo prNumber pr)
  <> Exit code.
Proof.
  unfold assignDefaultReviewers.
  destruct (negb (length (RequestedReviewers pr) =? 0)%nat); [discriminate|].
  destruct (listAllContributors fuel client owner repo (User pr)
              {| Page := 0; PerPage := 100 |} []) as [t [pool|c|]] eqn:Hloop.
  - rewrite (bind_done (t, Done pool) pool) by reflexivity.
    cbn [result snd]. now rewrite requestReviewers_returns.
  - exfalso.
    apply (listAllContributors_no_exit client owner repo (User pr) fuel
             {| Page := 0; PerPage := 100 |} [] c).
    now rewrite Hloop.
  - discriminate.
Qed.

(** X12.  Without a token, without a pull-request number, or with a number
    that [strconv.Atoi] rejects, the run ends with one diagnostic line and
    status 1 before any API call. *)
Theorem token_and_number_required :
  getenv "GITHUB_TOKEN" = []
  \/ getenv "PR_NUMBER" = []
  \/ (exists err, Int.Atoi (getenv "PR_NUMBER") = inl err) ->
  exists format args,
    main caseLower getenv newGitHubClient fuel src = ([Log format args], Exit 1).
Proof.
  intros Hbad. unfold main. cbv zeta.
  destruct (GoString.eqb (getenv "GITHUB_TOKEN") []) eqn:Htok;
    [eexists _, _; reflexivity|].
  rewrite bind_ret_l.
  destruct (GoString.eqb (getenv "GITHUB_REPOSITORY") []);
    [eexists _, _; reflexivity|].
  rewrite bind_ret_l.
  destruct (negb (length (Split (getenv "GITHUB_REPOSITORY") (lit "/")) =? 2)%nat);
    [eexists _, _; reflexivity|].
  rewrite bind_ret_l.
  destruct (GoString.eqb (getenv "PR_NUMBER") []) eqn:Hnum;
    [eexists _, _; reflexivity|].
  rewrite bind_ret_l.
  destruct (Int.Atoi (getenv "PR_NUMBER")) as [err|n] eqn:Hatoi;
    [eexists _, _; reflexivity|].
  exfalso. apply eqb_nil in Htok, Hnum.
  destruct Hbad as [Hbad|[Hbad|[err Hbad]]]; congruence.
Qed.

(** X13.  With the inputs in order, a pull request that cannot be fetched
    ends the run with status 1 right after the one fetch: no rule runs. *)
Theorem fetch_failure_is_fatal (owner name : gostring) (n : Z) (err : error) :
  validInputs getenv owner name n ->
  Get (newGitHubClient (getenv "GITHUB_TOKEN")) owner name n = inl err ->
  main caseLower getenv newGitHubClient fuel src
  = ([Api (PullRequests_Get owner name n);
      Log "Failed to get PR #%d: %v" [VInt n; VError err]], Exit 1).
Proof.
  intros (Htok & Hrepo & Ho & Hn & Hpr & Hnum) Hget.
  rewrite (main_valid_inputs caseLower getenv newGitHubClient fuel src owner name n)
    by assumption.
  cbv zeta. unfold getPullRequest. rewrite bind_call, Hget. reflexivity.
Qed.

(** X14.  With the inputs in order and the pull request fetched, once the
    title rule returns the three other rules all run, in the order size,
    assignee, reviewers, whatever the earlier ones met; the run's trace is
    the fetch followed by the four traces, and the run does not end with an
    exit status. *)
Theorem rules_run_in_order (owner name : gostring) (n : Z) (pr : PullRequest) :
  validInputs getenv owner name n ->
  Get (newGitHubClient (getenv "GITHUB_TOKEN")) owner name n = inr pr ->
  result (handleTitleBasedLabel caseLower (newGitHubClient (getenv "GITHUB_TOKEN"))
            owner name n pr) = Done tt ->
  let client := newGitHubClient (getenv "GITHUB_TOKEN") in
  trace (main caseLower getenv newGitHubClient fuel src)
  = Api (PullRequests_Get owner name n)
    :: trace (handleTitleBasedLabel caseLower client owner name n pr)
    ++ trace (handleDayLabel client owner name n pr)
    ++ trace (assignDefaultAssignee client owner name n pr)
    ++ trace (assignDefaultReviewers fuel src client owner name n pr)
  /\ result (main caseLower getenv newGitHubClient fuel src)
     = result (assignDefaultReviewers fuel src client owner name n pr)
  /\ (forall code, result (main caseLower getenv newGitHubClient fuel src)
                   <> Exit code).
Proof.
  intros (Htok & Hrepo & Ho & Hn & Hpr & Hnum) Hget Htitle client.
  assert (Hmain :
    main caseLower getenv newGitHubClient fuel src
    = (Api (PullRequests_Get owner name n)
       :: trace (handleTitleBasedLabel caseLower client owner name n pr)
       ++ trace (handleDayLabel client owner name n pr)
       ++ trace (assignDefaultAssignee client owner name n pr)
       ++ trace (assignDefaultReviewers fuel src client owner name n pr),
       result (assignDefaultReviewers fuel src client owner name n pr))).
  { rewrite (main_valid_inputs caseLower getenv newGitHubClient fuel src owner name n)
      by assumption.
    cbv zeta. fold client. unfold getPullRequest. rewrite bind_call.
    fold client in Hget. rewrite Hget, bind_ret_l.
    rewrite (bind_done _ tt) by exact Htitle.
    rewrite (bind_done _ tt) by apply handleDayLabel_returns.
    rewrite (bind_done _ tt) by apply assignDefaultAssignee_returns.
    cbn [trace result fst snd]. reflexivity. }
  rewrite Hmain. cbn [trace result fst snd].
  split; [reflexivity|]. split; [reflexivity|].
  intros code. apply assignDefaultReviewers_no_exit.
Qed.

End WholeRun.

Lemma token_and_number_required_witness :
  exists format args,
    main sampleLower (envOf "t0ken" "o/r" "12a")
      (fun _ => clientOf (sampleHost (samplePR "fix: y") [] [])) 5 []
    = ([Log format args], Exit 1).
Proof.
  apply (token_and_number_required sampleLower (envOf "t0ken" "o/r" "12a")
           (fun _ => clientOf (sampleHost (samplePR "fix: y") [] [])) 5%nat []).
  right. right. eexists. vm_compute. reflexivity.
Defined.

Lemma validInputs_sample : validInputs (envOf "t0ken" "o/r" "7") (lit "o") (lit "r") 7.
Proof.
  unfold validInputs. repeat split.
  - vm_compute. discriminate.
  - vm_compute. intuition discriminate.
  - vm_compute. intuition discriminate.
  - vm_compute. discriminate.
Qed.

Lemma fetch_failure_is_fatal_witness :
  main sampleLower (envOf "t0ken" "o/r" "7")
    (fun _ => clientOf {| pull := inl (ApiError "404 Not Found");
                          files := reliable [];
                          contributors := reliable [];
                          refuse := fun _ => None |}) 5 []
  = ([Api (PullRequests_Get (lit "o") (lit "r") 7);
      Log "Failed to get PR #%d: %v" [VInt 7; VError (ApiError "404 Not Found")]],
     Exit 1).
Proof.
  apply (fetch_failure_is_fatal sampleLower (envOf "t0ken" "o/r" "7")
           (fun _ => clientOf {| pull := inl (ApiError "404 Not Found");
                                 files := reliable [];
                                 contributors := reliable [];
                                 refuse := fun _ => None |})
           5%nat [] (lit "o") (lit "r") 7 (ApiError "404 Not Found")).
  - exact validInputs_sample.
  - reflexivity.
Defined.

Lemma rules_run_in_order_witness :
  calls (trace (main sampleLower (envOf "t0ken" "o/r" "7")
                  (fun _ => clientOf (refusingHost (samplePR "fix: y") [file 1 1]
                                        [user "bob"])) 5 []))
  = [PullRequests_Get (lit "o") (lit "r") 7;
     Issues_AddLabelsToIssue (lit "o") (lit "r") 7 [lit "bug"];
     PullRequests_ListFiles (lit "o") (lit "r") 7 None;
     Issues_AddLabelsToIssue (lit "o") (lit "r") 7 [lit "D-3"];
     Issues_AddAssignees (lit "o") (lit "r") 7 [lit "alice"];
     Repositories_ListContributors (lit "o") (lit "r") firstPage;
     PullRequests_RequestReviewers (lit "o") (lit "r") 7 [lit "bob"]]
  /\ result (main sampleLower (envOf "t0ken" "o/r" "7")
               (fun _ => clientOf (refusingHost (samplePR "fix: y") [file 1 1]
                                     [user "bob"])) 5 []) = Done tt.
Proof.
  destruct (rules_run_in_order sampleLower (envOf "t0ken" "o/r" "7")
              (fun _ => clientOf (refusingHost (samplePR "fix: y") [file 1 1]
                                    [user "bob"]))
              5%nat [] (lit "o") (lit "r") 7 (samplePR "fix: y"))
    as [Htrace [Hresult _]].
  - exact validInputs_sample.
  - reflexivity.
  - vm_compute. reflexivity.
  - rewrite Htrace, Hresult. vm_compute. split; reflexivity.
Defined.

(** ** The reviewer rule beyond the sample size *)
Section ReviewerPool.

Variables (owner repo : gostring) (prNumber : Z).

Lemma contributorPool_In (author login : gostring) (cs : list Contributor) :
  In login (contributorPool author cs) ->
  login <> author /\ exists c, In c cs /\ Login c = login.
Proof.
  unfold contributorPool. intros Hin.
  apply List.filter_In in Hin as [Hin Hne]. split.
  - intros ->. unfold GoString.eqb in Hne.
    rewrite bool_decide_eq_true_2 in Hne by reflexivity. discriminate.
  - apply List.in_map_iff in Hin as [c [Hc Hin]]. now exists c.
Qed.

Lemma contributorPool_only_author (author : gostring) (cs : list Contributor) :
  (forall c, In c cs -> Login c = author) -> contributorPool author cs = [].
Proof.
  intros Hall. destruct (contributorPool author cs) as [|login rest] eqn:Hpool;
    [reflexivity|].
  assert (Hin : In login (contributorPool author cs)) by (rewrite Hpool; now left).
  apply contributorPool_In in Hin as [Hne [c [Hc Hlogin]]].
  rewrite (Hall c Hc) in Hlogin. congruence.
Qed.

Lemma reviewersOf_bounded (src : Rand.Source) (pool : list gostring) :
  length (reviewersOf src pool) = Nat.min 10 (length pool)
  /\ (forall login, In login (reviewersOf src pool) -> In login pool).
Proof.
  unfold reviewersOf. destruct (Nat.ltb_spec 10 (length pool)) as [Hbig|Hsmall].
  - pose proof (Shuffle_Permutation (length pool) src pool) as Hperm. split.
    + rewrite length_take, (Permutation_length Hperm). lia.
    + intros login Hin. apply list_elem_of_In in Hin. apply list_elem_of_In.
      rewrite <- Hperm. apply elem_of_take in Hin as [i [Hi _]].
      apply list_elem_of_lookup. now exists i.
  - split; [lia|auto].
Qed.

(** X15.  When the contributor list holds nobody but the author (or nobody
    at all), the rule logs, requests no reviewer and returns. *)
Theorem only_author_no_request (h : Host) (fuel : nat) (src : Rand.Source)
    (pr : PullRequest) :
  RequestedReviewers pr = [] ->
  (length (items (Hosting.contributors h)) < fuel)%nat ->
  (forall c, In c (items (Hosting.contributors h)) -> Login c = User pr) ->
  writes (trace (assignDefaultReviewers fuel src (clientOf h) owner repo prNumber pr))
  = []
  /\ result (assignDefaultReviewers fuel src (clientOf h) owner repo prNumber pr)
     = Done tt.
Proof.
  intros Hnone Hfuel Hall.
  destruct (listAllContributors_host owner repo (User pr) h fuel firstPage [])
    as [t [k [Hrun _]]]; [reflexivity|cbn; lia|].
  change ((pageOf (Some firstPage) - 1) * 100)%nat with 0%nat in Hrun.
  cbn [skipn app] in Hrun.
  rewrite contributorPool_only_author in Hrun.
  - destruct (listAllContributors_safe _ _ _ _ _ _ _ _ _ Hrun) as [Hw _].
    rewrite (assignDefaultReviewers_run owner repo prNumber fuel src (clientOf h)
               pr t [] Hnone Hrun).
    cbn [trace result fst snd]. rewrite writes_app, Hw. split; reflexivity.
  - intros c Hin. apply Hall. apply list_elem_of_In.
    apply list_elem_of_In in Hin. apply elem_of_take in Hin as [i [Hi _]].
    apply list_elem_of_lookup. now exists i.
Qed.

(** X16.  Whatever the client answers and whether or not logins repeat: once
    the loop has gathered a pool, the rule makes at most one reviewer
    request; it goes out exactly when the pool is non-empty, carries the
    pool's size capped at 10, and names only logins of the pool, never the
    author. *)
Theorem reviewer_request_bounded (fuel : nat) (src : Rand.Source)
    (client : Client) (pr : PullRequest) (t : list Event) (pool : list gostring) :
  RequestedReviewers pr = [] ->
  listAllContributors fuel client owner repo (User pr) firstPage [] = (t, Done pool) ->
  (pool = []
   /\ writes (trace (assignDefaultReviewers fuel src client owner repo prNumber pr))
      = [])
  \/ (exists reviewers,
         writes (trace (assignDefaultReviewers fuel src client owner repo prNumber pr))
         = [PullRequests_RequestReviewers owner repo prNumber reviewers]
         /\ length reviewers = Nat.min 10 (length pool)
         /\ reviewers <> []
         /\ (forall login, In login reviewers -> In login pool /\ login <> User pr)).
Proof.
  intros Hnone Hloop.
  destruct (reviewers_of_pool owner repo prNumber fuel src client pr t pool Hnone Hloop)
    as [Hfree Hreq].
  destruct pool as [|c pool].
  - left. split; [reflexivity|].
    destruct (listAllContributors_safe _ _ _ _ _ _ _ _ _ Hloop) as [Hw _].
    rewrite (assignDefaultReviewers_run owner repo prNumber fuel src client
               pr t [] Hnone Hloop).
    cbn [trace fst]. now rewrite writes_app, Hw.
  - right. destruct Hreq as [Hw _]; [discriminate|].
    destruct (reviewersOf_bounded src (c :: pool)) as [Hlen Hincl].
    exists (reviewersOf src (c :: pool)). split; [exact Hw|].
    split; [exact Hlen|]. split.
    + intros Hnil. rewrite Hnil in Hlen. cbn [length] in Hlen. lia.
    + intros login Hin. split; [now apply Hincl|].
      intros ->. apply Hfree. now apply Hincl.
Qed.

(** The loop up to the first page that fails. *)
Lemma listAllContributors_until_outage (h : Host) (author : gostring)
    (q : nat) (err : error) (fuel : nat) :
  outage (Hosting.contributors h) q = Some err ->
  forall opts contributors,
    PerPage opts = 100 ->
    (pageOf (Some opts) <= q)%nat ->
    (q - pageOf (Some opts) < fuel)%nat ->
    (pageOf (Some opts) = q
     \/ ((q - 1) * 100 < length (items (Hosting.contributors h)))%nat) ->
    (forall p, (pageOf (Some opts) <= p < q)%nat ->
               outage (Hosting.contributors h) p = None) ->
    result (listAllContributors fuel (clientOf h) owner repo author opts contributors)
    = Done (contributors
            ++ contributorPool author
                 (take ((q - pageOf (Some opts)) * 100)
                    (drop ((pageOf (Some opts) - 1) * 100)
                       (items (Hosting.contributors h))))).
Proof.
  intros Hout. induction fuel as [|fuel IH];
    intros opts acc Hpp Hle Hfuel Hreach Hup; [lia|].
  rewrite listAllContributors_step.
  change (ListContributors (clientOf h) owner repo opts)
    with (servePage (Hosting.contributors h) (Some opts)).
  unfold servePage.
  assert (Hper : perPageOf (Some opts) = 100%nat).
  { unfold perPageOf. rewrite Hpp. reflexivity. }
  rewrite Hper.
  assert (Hp : (1 <= pageOf (Some opts))%nat).
  { unfold pageOf. destruct (Z.leb_spec (Page opts) 0); lia. }
  set (p := pageOf (Some opts)) in *.
  set (cs := items (Hosting.contributors h)) in *.
  destruct (Nat.eq_dec p q) as [Heq|Hne].
  - rewrite Heq, Hout. cbn [result snd]. rewrite Nat.sub_diag.
    cbn [Nat.mul take]. unfold contributorPool. cbn. now rewrite app_nil_r.
  - assert (Hlt : (p < q)%nat) by lia.
    rewrite (Hup p) by lia. cbn [NextPage].
    assert (Hlen : ((q - 1) * 100 < length cs)%nat) by (destruct Hreach; [lia|assumption]).
    replace (p * 100 <? length cs)%nat with true by (symmetry; apply Nat.ltb_lt; nia).
    replace (Z.of_nat (S p) =? 0) with false by (symmetry; apply Z.eqb_neq; lia).
    cbv zeta. cbn [result snd].
    set (opts' := {| Page := Z.of_nat (S p); PerPage := PerPage opts |}).
    assert (Hp' : pageOf (Some opts') = S p).
    { unfold pageOf, opts'. cbn [Page].
      destruct (Z.leb_spec (Z.of_nat (S p)) 0); lia. }
    rewrite (IH opts'); rewrite ?Hp'; fold cs;
      [|exact Hpp|lia|lia|right; exact Hlen|intros p' Hp'q; apply Hup; lia].
    f_equal. rewrite appendPage_pool, <- app_assoc. f_equal.
    rewrite <- contributorPool_app. f_equal.
    replace (S p - 1)%nat with p by lia.
    replace (drop (p * 100) cs) with (drop 100 (drop ((p - 1) * 100) cs))
      by (rewrite drop_drop; f_equal; lia).
    rewrite take_take_drop. f_equal. lia.
Qed.

(** X17.  When the request for page [q] of the contributor list is the
    first to fail, the loop stops there and keeps what the pages before
    gave: the pool of the first [(q - 1) * 100] contributors.  Reviewers
    are then requested from that partial pool if it is not empty. *)
Theorem partial_list_on_outage (h : Host) (q : nat) (err : error)
    (fuel : nat) (src : Rand.Source) (pr : PullRequest) :
  (1 <= q <= fuel)%nat ->
  outage (Hosting.contributors h) q = Some err ->
  (forall p, (1 <= p < q)%nat -> outage (Hosting.contributors h) p = None) ->
  (q = 1%nat \/ ((q - 1) * 100 < length (items (Hosting.contributors h)))%nat) ->
  let partial :=
    contributorPool (User pr)
      (take ((q - 1) * 100) (items (Hosting.contributors h))) in
  result (listAllContributors fuel (clientOf h) owner repo (User pr) firstPage [])
  = Done partial
  /\ (RequestedReviewers pr = [] -> partial <> [] ->
      writes (trace (assignDefaultReviewers fuel src (clientOf h) owner repo
                       prNumber pr))
      = [PullRequests_RequestReviewers owner repo prNumber (reviewersOf src partial)]).
Proof.
  intros Hq Hout Hup Hreach partial.
  assert (Hloop :
    result (listAllContributors fuel (clientOf h) owner repo (User pr) firstPage [])
    = Done partial).
  { rewrite (listAllContributors_until_outage h (User pr) q err fuel Hout firstPage []).
    - reflexivity.
    - reflexivity.
    - change (pageOf (Some firstPage)) with 1%nat. lia.
    - change (pageOf (Some firstPage)) with 1%nat. lia.
    - change (pageOf (Some firstPage)) with 1%nat.
      destruct Hreach as [->|Hlen]; [now left|now right].
    - change (pageOf (Some firstPage)) with 1%nat. exact Hup. }
  split; [exact Hloop|].
  intros Hnone Hne.
  destruct (listAllContributors fuel (clientOf h) owner repo (User pr) firstPage [])
    as [t r] eqn:Hrun.
  cbn [result snd] in Hloop. subst r.
  destruct (reviewers_of_pool owner repo prNumber fuel src (clientOf h) pr t partial
              Hnone Hrun) as [_ Hreq].
  now destruct (Hreq Hne).
Qed.

(** X18.  Shuffling the contributors with the swap of the program keeps
    them all: the slice afterwards is a rearrangement of the slice before,
    whatever the random draws. *)
Theorem shuffle_rearranges (src : Rand.Source) (contributors : list gostring) :
  Rand.Shuffle (length contributors) src contributors ≡ₚ contributors
  /\ length (Rand.Shuffle (length contributors) src contributors)
     = length contributors
  /\ (forall login,
         In login (Rand.Shuffle (length contributors) src contributors)
         <-> In login contributors).
Proof.
  pose proof (Shuffle_Permutation (length contributors) src contributors) as Hperm.
  split; [exact Hperm|]. split; [now apply Permutation_length|].
  intros login. rewrite <- !list_elem_of_In. now rewrite Hperm.
Qed.

End ReviewerPool.

Lemma only_author_no_request_witness :
  writes (trace (assignDefaultReviewers 5 draws
                   (clientOf (sampleHost pr0 [] [user "alice"; user "alice"]))
                   (lit "o") (lit "r") 7 pr0)) = []
  /\ result (assignDefaultReviewers 5 draws
               (clientOf (sampleHost pr0 [] [user "alice"; user "alice"]))
               (lit "o") (lit "r") 7 pr0) = Done tt.
Proof.
  apply (only_author_no_request (lit "o") (lit "r") 7
           (sampleHost pr0 [] [user "alice"; user "alice"]) 5%nat draws pr0).
  - reflexivity.
  - vm_compute. lia.
  - intros c [<-|[<-|[]]]; reflexivity.
Defined.

Lemma reviewer_request_bounded_witness :
  (contributorPool (lit "alice") crowd = []
   /\ writes (trace (ruleRun crowd)) = [])
  \/ (exists reviewers,
         writes (trace (ruleRun crowd))
         = [PullRequests_RequestReviewers (lit "o") (lit "r") 7 reviewers]
         /\ length reviewers = Nat.min 10 (length (contributorPool (lit "alice") crowd))
         /\ reviewers <> []
         /\ (forall login, In login reviewers ->
               In login (contributorPool (lit "alice") crowd)
               /\ login <> lit "alice")).
Proof.
  apply (reviewer_request_bounded (lit "o") (lit "r") 7 20%nat draws
           (clientFor crowd) pr0 (trace (loopRun crowd))
           (contributorPool (lit "alice") crowd)).
  - reflexivity.
  - vm_compute. reflexivity.
Defined.

Lemma partial_list_on_outage_witness :
  result (listAllContributors 5
            (clientOf (flakyHost pr0 (numbered 250) (Nat.eqb 2)))
            (lit "o") (lit "r") (lit "alice") firstPage [])
  = Done (contributorPool (lit "alice") (take 100 (numbered 250)))
  /\ writes (trace (assignDefaultReviewers 5 draws
                      (clientOf (flakyHost pr0 (numbered 250) (Nat.eqb 2)))
                      (lit "o") (lit "r") 7 pr0))
     = [PullRequests_RequestReviewers (lit "o") (lit "r") 7
          (reviewersOf draws
             (contributorPool (lit "alice") (take 100 (numbered 250))))].
Proof.
  destruct (partial_list_on_outage (lit "o") (lit "r") 7
              (flakyHost pr0 (numbered 250) (Nat.eqb 2)) 2%nat
              (ApiError "502 Bad Gateway") 5%nat draws pr0) as [Hloop Hrule].
  - lia.
  - reflexivity.
  - intros p Hp. assert (p = 1%nat) as -> by lia. reflexivity.
  - right. vm_compute. lia.
  - split; [exact Hloop|]. apply Hrule; [reflexivity|].
    vm_compute. discriminate.
Defined.

(** ** Running a rule again *)
Section Rerun.

Variable caseLower : rune -> rune.
Variables (client client' : Client) (owner repo : gostring) (prNumber : Z).

(** X19.  The title rule is idempotent across runs: if a run added a label,
    then on the same title with that label among the labels a further run,
    against whatever client, makes no API call. *)
Theorem title_rule_idempotent (pr pr' : PullRequest) (label : gostring) :
  calls (trace (handleTitleBasedLabel caseLower client owner repo prNumber pr))
  = [Issues_AddLabelsToIssue owner repo prNumber [label]] ->
  Title pr' = Title pr ->
  In label (Labels pr') ->
  handleTitleBasedLabel caseLower client' owner repo prNumber pr'
  = ([Log "PR already has label: %s" [VString label]], Done tt).
Proof.
  intros Hfirst Htitle Hin.
  destruct (Contains (ToLower caseLower (Title pr)) (lit ":")) eqn:Hc.
  - rewrite handleTitleBasedLabel_contains in Hfirst by assumption.
    rewrite handleTitleBasedLabel_contains by (now rewrite Htitle).
    rewrite Htitle.
    destruct (labelMap !! cleanPrefix caseLower (Title pr)) as [l|] eqn:Hmap.
    + destruct (in_dec (List.list_eq_dec Z.eq_dec) l (Labels pr)) as [Hl|Hl].
      * rewrite (applyLabel_present client _ _ _ _ _ _ Hmap Hl) in Hfirst.
        discriminate.
      * destruct (applyLabel_absent client owner repo prNumber _ _ _ Hmap Hl)
          as [Hcalls _].
        rewrite Hcalls in Hfirst. injection Hfirst as ->.
        now apply applyLabel_present.
    + rewrite applyLabel_unknown in Hfirst by assumption. discriminate.
  - rewrite handleTitleBasedLabel_no_colon in Hfirst by assumption. discriminate.
Qed.

End Rerun.

Lemma title_rule_idempotent_witness :
  handleTitleBasedLabel sampleLower (clientOf (refusingHost assignedPR [] []))
    (lit "o") (lit "r") 7 assignedPR
  = ([Log "PR already has label: %s" [VString (lit "documentation")]], Done tt).
Proof.
  apply (title_rule_idempotent sampleLower
           (clientOf (sampleHost (samplePR "docs: readme") [] []))
           (clientOf (refusingHost assignedPR [] []))
           (lit "o") (lit "r") 7 (samplePR "docs: readme") assignedPR
           (lit "documentation")).
  - vm_compute. reflexivity.
  - reflexivity.
  - left. reflexivity.
Defined.

(** ** No call before validation *)
Section CallsNeedValidInputs.

Variable caseLower : rune -> rune.
Variable getenv : string -> gostring.
Variable newGitHubClient : gostring -> Client.
Variables (fuel : nat) (src : Rand.Source).

Lemma beforeSep_free (c : rune) (s : gostring) : ~ In c (beforeSep c s).
Proof.
  induction s as [|x s IH]; cbn [beforeSep]; [intros []|].
  destruct (Z.eqb_spec x c) as [->|Hne]; [intros []|].
  intros [Heq|Hin]; [congruence|now apply IH].
Qed.

Lemma split_at_first (c : rune) (s : gostring) :
  In c s -> s = beforeSep c s ++ c :: afterSep c s.
Proof.
  induction s as [|x s IH]; intros Hin; [destruct Hin|].
  cbn [beforeSep afterSep]. destruct (Z.eqb_spec x c) as [->|Hne]; [reflexivity|].
  cbn [app]. f_equal. apply IH. destruct Hin as [Heq|Hin]; [congruence|assumption].
Qed.

(** A text with exactly one separator is what stands before it, the
    separator, and what stands after it. *)
Lemma single_separator (c : rune) (s : gostring) :
  count_occ Z.eq_dec s c = 1%nat ->
  s = beforeSep c s ++ c :: afterSep c s
  /\ ~ In c (beforeSep c s) /\ ~ In c (afterSep c s).
Proof.
  intros Hcount.
  assert (Hin : In c s) by (apply (count_occ_In Z.eq_dec); lia).
  split; [now apply split_at_first|]. split; [apply beforeSep_free|].
  apply (count_occ_not_In Z.eq_dec).
  pose proof (afterSep_count c s Hin). lia.
Qed.

(** X20.  The run calls the API only with validated inputs: if it makes any
    call at all, then the token is set, the repository identifier splits
    into an owner and a name around its only [/], the number parses, and
    the first call fetches that pull request of that repository. *)
Theorem calls_need_valid_inputs :
  calls (trace (main caseLower getenv newGitHubClient fuel src)) <> [] ->
  exists owner name n rest,
    validInputs getenv owner name n
    /\ calls (trace (main caseLower getenv newGitHubClient fuel src))
       = PullRequests_Get owner name n :: rest.
Proof.
  intros Hcalls.
  destruct (GoString.eqb (getenv "GITHUB_TOKEN") []) eqn:Htok.
  { exfalso. apply Hcalls. unfold main. cbv zeta. rewrite Htok. reflexivity. }
  destruct (GoString.eqb (getenv "GITHUB_REPOSITORY") []) eqn:Hrepo.
  { exfalso. apply Hcalls. unfold main. cbv zeta. rewrite Htok, Hrepo. reflexivity. }
  destruct (Nat.eqb_spec (length (Split (getenv "GITHUB_REPOSITORY") (lit "/"))) 2)
    as [Hlen|Hlen].
  2:{ exfalso. apply Hcalls. unfold main. cbv zeta. rewrite Htok, Hrepo.
      rewrite !bind_ret_l.
      replace (length (Split (getenv "GITHUB_REPOSITORY") (lit "/")) =? 2)%nat
        with false by (symmetry; now apply Nat.eqb_neq).
      reflexivity. }
  destruct (GoString.eqb (getenv "PR_NUMBER") []) eqn:Hnum.
  { exfalso. apply Hcalls. unfold main. cbv zeta. rewrite Htok, Hrepo, Hnum.
    rewrite !bind_ret_l. rewrite Hlen. reflexivity. }
  destruct (Int.Atoi (getenv "PR_NUMBER")) as [err|n] eqn:Hatoi.
  { exfalso. apply Hcalls. unfold main. cbv zeta. rewrite Htok, Hrepo, Hnum, Hatoi.
    rewrite !bind_ret_l. rewrite Hlen. reflexivity. }
  change (lit "/") with [47] in Hlen. rewrite Split_length in Hlen.
  destruct (single_separator 47 (getenv "GITHUB_REPOSITORY")) as [Hsplit [Ho Hn]];
    [lia|].
  apply eqb_nil in Htok, Hnum.
  assert (Hvalid : validInputs getenv
                     (beforeSep 47 (getenv "GITHUB_REPOSITORY"))
                     (afterSep 47 (getenv "GITHUB_REPOSITORY")) n).
  { unfold validInputs. repeat split; assumption. }
  eexists _, _, n, _. split; [exact Hvalid|].
  rewrite (main_valid_inputs caseLower getenv newGitHubClient fuel src
             (beforeSep 47 (getenv "GITHUB_REPOSITORY"))
             (afterSep 47 (getenv "GITHUB_REPOSITORY")) n)
    by assumption.
  cbv zeta. unfold getPullRequest. rewrite bind_call. reflexivity.
Qed.

End CallsNeedValidInputs.

Lemma calls_need_valid_inputs_witness :
  exists owner name n rest,
    validInputs (sampleEnv "/name") owner name n
    /\ calls (trace (sampleRun "/name")) = PullRequests_Get owner name n :: rest.
Proof.
  apply (calls_need_valid_inputs sampleLower (sampleEnv "/name")
           (fun _ => clientOf (sampleHost (samplePR "fix: typo") [file 3 1] [user "bob"]))
           5%nat []).
  vm_compute. discriminate.
Defined.
